(** * aptsources_cleanup.util.functools: [comp] and [LazyInstance]

    A shallow embedding of [src/aptsources_cleanup/util/functools.py].

    Python objects that come from outside the module (classes, their
    instances, plain functions, numbers) are host objects: the module only
    ever asks whether they are callable, whether they are types or instances
    of a type, looks up attributes on them and calls them.  These questions
    are the fields of the [Host] class below.  Objects the module creates
    itself (the [partial] object of [comp], the [methodcaller] getter, the
    deferred [lambda] of [_li_bind_method_impl], the argument tuple of
    [_bind_method]) are constructors of [value], and calling them is the
    interpreter [call].

    [LazyInstance] objects are mutable and shared between the deferred
    callers that close over [self]; they live in a heap and are named by
    their address.  A computation is a state transformer that either
    returns, raises, or runs out of fuel ([None]).  Besides the heap the
    state holds the world of the host program, which only host callables
    change, and a trace with one entry per host callable the module has
    invoked.

    The interpreter is the default one: [assert] statements are executed,
    and [map] returns an iterator that has not run yet. *)

From Stdlib Require Import String List ZArith Bool Lia.
From stdpp Require Import base list.
Import ListNotations.

Local Open Scope string_scope.

(** ** Values *)

(** Address of a [LazyInstance] object in the heap. *)
Abbreviation loc := nat (only parsing).

Section Values.
Variable O : Type.

#[local] Set Warnings "-register-all".

Inductive value : Type :=
| VNone
| VStr (s : string)
| VTuple (items : list value)
| VHost (o : O)
(* operator.identity *)
| VIdentity
(* partial(reduce, rapply, funcs) *)
| VPartial (funcs : list value)
(* methodcaller(getattr, name) *)
| VMethodcaller (name : value)
(* lambda *args: method_or_name(self._instance)( *args ) *)
| VDeferred (self : loc) (method_or_name : value)
(* map(self._li_bind_method_impl, methods_or_names), not yet consumed *)
| VMap (self : loc) (methods_or_names : list value).

Definition kwargs : Type := list (string * value).

Definition is_none (v : value) : bool :=
  match v with VNone => true | _ => false end.
End Values.

Arguments VNone {O}.
Arguments VStr {O} s.
Arguments VTuple {O} items.
Arguments VHost {O} o.
Arguments VIdentity {O}.
Arguments VPartial {O} funcs.
Arguments VMethodcaller {O} name.
Arguments VDeferred {O} self method_or_name.
Arguments VMap {O} self methods_or_names.
Arguments is_none {O} v.

(** ** Exceptions and results *)

Inductive exn : Type :=
| AssertionError
| TypeError (msg : string)
| AttributeError (msg : string)
| Exception (cls msg : string).

Inductive result (A : Type) : Type :=
| Ok (a : A)
| Raise (e : exn).

Arguments Ok {A} a.
Arguments Raise {A} e.

(** ** The host program *)

Class Host : Type := {
  obj : Type;
  world : Type;
  (* callable(o) *)
  host_callable : obj -> bool;
  (* isinstance(o, TypesType); TypesType comes from the _3to2 module *)
  host_is_type : obj -> bool;
  (* isinstance(v, t) for a type t *)
  host_isinstance : value obj -> obj -> bool;
  (* getattr(v, name) for a string name; attribute lookup has no effect on
     the world *)
  host_getattr : value obj -> string -> result (value obj);
  (* o( *args, **kw ) for a callable o *)
  host_call : obj -> list (value obj) -> kwargs obj -> world ->
              result (value obj) * world;
  (* str(type(v)) *)
  host_type_str : value obj -> string
}.

Section Program.
Context {H : Host}.

Abbreviation val := (value obj).
Abbreviation kw := (kwargs obj).

(** *** Builtins *)

Definition callable (v : val) : bool :=
  match v with
  | VHost o => host_callable o
  | VIdentity | VPartial _ | VMethodcaller _ | VDeferred _ _ => true
  | VNone | VStr _ | VTuple _ | VMap _ _ => false
  end.

(* isinstance(v, TypesType) *)
Definition is_type (v : val) : bool :=
  match v with
  | VHost o => host_is_type o
  | _ => false
  end.

Definition isinstance (v t : val) : result bool :=
  match t with
  | VHost o =>
      if host_is_type o then Ok (host_isinstance v o)
      else Raise (TypeError "isinstance() arg 2 must be a type")
  | _ => Raise (TypeError "isinstance() arg 2 must be a type")
  end.

(* getattr(o, name) *)
Definition getattr (o name : val) : result val :=
  match name with
  | VStr s => host_getattr o s
  | _ => Raise (TypeError "attribute name must be string")
  end.

(* getattr(o, name, default): only AttributeError selects the default *)
Definition getattr_default (o name default : val) : result val :=
  match getattr o name with
  | Raise (AttributeError _) => Ok default
  | r => r
  end.

(** *** State *)

Record LazyInstance : Type := {
  _li_instance : val;
  _li_factory : val;
  _li_type_hint : val;
  _li_strict : bool
}.

(** One invocation of a host callable by the module. *)
Record event : Type := {
  callee : obj;
  positional : list val;
  keywords : kw
}.

Record state : Type := {
  heap : list LazyInstance;
  host_world : world;
  trace : list event
}.

Definition M (A : Type) : Type := state -> option (result A * state).

Definition ret {A} (a : A) : M A := fun st => Some (Ok a, st).

Definition raise {A} (e : exn) : M A := fun st => Some (Raise e, st).

Definition out_of_fuel {A} : M A := fun _ => None.

Definition bind {A B} (m : M A) (k : A -> M B) : M B :=
  fun st =>
    match m st with
    | Some (Ok a, st') => k a st'
    | Some (Raise e, st') => Some (Raise e, st')
    | None => None
    end.

Definition lift {A} (r : result A) : M A := fun st => Some (r, st).

(* self.<field> *)
Definition getfield {A} (self : loc) (field : LazyInstance -> A) : M A :=
  fun st =>
    match heap st !! self with
    | Some p => Some (Ok (field p), st)
    | None => None
    end.

Definition store (self : loc) (upd : LazyInstance -> LazyInstance)
    (st : state) : state :=
  {| heap := alter upd self (heap st); host_world := host_world st;
     trace := trace st |}.

(* self.<field> = v *)
Definition setfield (self : loc) (upd : LazyInstance -> LazyInstance)
    : M unit :=
  fun st =>
    match heap st !! self with
    | Some _ => Some (Ok tt, store self upd st)
    | None => None
    end.

Definition set_instance (v : val) (p : LazyInstance) : LazyInstance :=
  {| _li_instance := v; _li_factory := _li_factory p;
     _li_type_hint := _li_type_hint p; _li_strict := _li_strict p |}.

Definition set_factory (v : val) (p : LazyInstance) : LazyInstance :=
  {| _li_instance := _li_instance p; _li_factory := v;
     _li_type_hint := _li_type_hint p; _li_strict := _li_strict p |}.

Definition set_type_hint (v : val) (p : LazyInstance) : LazyInstance :=
  {| _li_instance := _li_instance p; _li_factory := _li_factory p;
     _li_type_hint := v; _li_strict := _li_strict p |}.

(* o( *args, **kwargs ) for a callable host object, recorded in the trace *)
Definition invoke (o : obj) (args : list val) (kwargs : kw) : M val :=
  fun st =>
    let (r, w) := host_call o args kwargs (host_world st) in
    Some (r, {| heap := heap st; host_world := w;
                trace := trace st ++ [{| callee := o; positional := args;
                                         keywords := kwargs |}] |}).

Notation "'let*' x ':=' m 'in' k" := (bind m (fun x => k))
  (at level 10, x name, m at level 200, k at level 200, only parsing).

(** *** functools.reduce and the helpers of util/operator.py *)

(* reduce(function, sequence, initial) *)
Fixpoint reduce (function : val -> val -> M val) (sequence : list val)
    (initial : val) : M val :=
  match sequence with
  | [] => ret initial
  | x :: rest => let* acc := function initial x in reduce function rest acc
  end.

(** Modelled from the spec: [identity] of util/operator.py is not among the
    sources.  It is the identity function: called with one argument, it
    returns that argument. *)
Definition identity (args : list val) (kwargs : kw) : M val :=
  match args, kwargs with
  | [x], [] => ret x
  | _, _ => raise (TypeError "identity() takes exactly one argument")
  end.

(** Modelled from the spec: [methodcaller] of util/operator.py is not among
    the sources.  [methodcaller(getattr, name)] is the getter that turns the
    request for the attribute [name] into a function of the object: called
    with [obj] it is [getattr(obj, name)]. *)
Definition methodcaller (name : val) (args : list val) (kwargs : kw) : M val :=
  match args, kwargs with
  | [o], [] => lift (getattr o name)
  | _, _ => raise (TypeError "methodcaller() takes exactly one argument")
  end.

(** *** LazyInstance *)

Definition type_hint_error (type_hint : val) : exn :=
  TypeError (String.append "type_hint must be None or a type, not "
                           (host_type_str type_hint)).

Definition __init__ (factory type_hint : val) (strict : bool)
    : result LazyInstance :=
  if is_none type_hint then
    Ok {| _li_instance := VNone; _li_factory := factory; _li_strict := strict;
          _li_type_hint := if is_type factory then factory else type_hint |}
  else if negb (is_type type_hint) then
    Raise (type_hint_error type_hint)
  else
    Ok {| _li_instance := VNone; _li_factory := factory; _li_strict := strict;
          _li_type_hint := type_hint |}.

(* LazyInstance(factory, type_hint, strict): a new object at a fresh address;
   nothing is allocated when __init__ raises *)
Definition new (factory type_hint : val) (strict : bool) : M loc :=
  fun st =>
    match __init__ factory type_hint strict with
    | Ok p => Some (Ok (length (heap st)),
                    {| heap := heap st ++ [p]; host_world := host_world st;
                       trace := trace st |})
    | Raise e => Some (Raise e, st)
    end.

Section Methods.
(* f( *args, **kwargs ), one level of calls further down *)
Variable call : val -> list val -> kw -> M val.

(** Modelled from the spec: [rapply] of util/operator.py is not among the
    sources.  The spec lists it as the combinator that applies one function
    to the result of another, and [comp] folds it with [reduce], which hands
    it the running result first and the next function second: [rapply(arg,
    func)] is [func(arg)].  (A combinator that returned a new function
    instead would make [comp(...)(x)] a function, not a result.) *)
Definition rapply (arg func : val) : M val := call func [arg] [].

Definition _instance (self : loc) : M val :=
  let* factory := getfield self _li_factory in
  let* _ :=
    if negb (is_none factory) then
      let* inst := call factory [] [] in
      let* _ := setfield self (set_instance inst) in
      let* type_hint := getfield self _li_type_hint in
      let* holds :=
        if is_none type_hint then ret true
        else let* inst' := getfield self _li_instance in
             lift (isinstance inst' type_hint) in
      let* _ := if holds : bool then ret tt else raise AssertionError in
      let* _ := setfield self (set_factory VNone) in
      setfield self (set_type_hint VNone)
    else ret tt in
  getfield self _li_instance.

Definition _li_bind_method_impl (self : loc) (method_or_name : val) : M val :=
  let method_or_name :=
    if negb (callable method_or_name) then VMethodcaller method_or_name
    else method_or_name in
  let* factory := getfield self _li_factory in
  if is_none factory then
    let* inst := getfield self _li_instance in
    call method_or_name [inst] []
  else
    ret (VDeferred self method_or_name).

(* Called by attribute access only for names that ordinary lookup on the
   LazyInstance object does not find. *)
Definition __getattr__ (self : loc) (name : string) : M val :=
  let* type_hint := getfield self _li_type_hint in
  let* deferred :=
    if negb (is_none type_hint) then
      let* strict := getfield self _li_strict in
      let* value :=
        lift (if strict : bool then getattr type_hint (VStr name)
              else getattr_default type_hint (VStr name) VNone) in
      ret (callable value)
    else ret false in
  if deferred : bool then _li_bind_method_impl self (VStr name)
  else
    let* inst := _instance self in
    lift (getattr inst (VStr name)).

(* The one-element case hands the argument tuple itself to
   _li_bind_method_impl. *)
Definition _bind_method (self : loc) (methods_or_names : list val) : M val :=
  if Nat.eqb (length methods_or_names) 1 then
    _li_bind_method_impl self (VTuple methods_or_names)
  else
    ret (VMap self methods_or_names).
End Methods.

(** *** Calls *)

Definition not_callable {A} : M A := raise (TypeError "object is not callable").

(** [call fuel f args kwargs] is [f( *args, **kwargs )].  Host callables are
    primitive; fuel bounds the depth of calls into the closures this module
    builds. *)
Fixpoint call (fuel : nat) (f : val) (args : list val) (kwargs : kw) : M val :=
  match f with
  | VHost o => if host_callable o then invoke o args kwargs else not_callable
  | VIdentity => identity args kwargs
  | VMethodcaller name => methodcaller name args kwargs
  | VPartial funcs =>
      (* reduce(rapply, funcs, *args, **kwargs) *)
      match fuel with
      | 0 => out_of_fuel
      | S fuel' =>
          match kwargs, args with
          | _ :: _, _ => raise (TypeError "reduce() takes no keyword arguments")
          | [], [] =>
              match funcs with
              | [] => raise (TypeError
                        "reduce() of empty sequence with no initial value")
              | initial :: rest => reduce (rapply (call fuel')) rest initial
              end
          | [], [x] => reduce (rapply (call fuel')) funcs x
          | [], _ => raise (TypeError "reduce expected at most 3 arguments")
          end
      end
  | VDeferred self method_or_name =>
      match fuel with
      | 0 => out_of_fuel
      | S fuel' =>
          match kwargs with
          | _ :: _ =>
              raise (TypeError "<lambda>() got an unexpected keyword argument")
          | [] =>
              let* inst := _instance (call fuel') self in
              let* method := call fuel' method_or_name [inst] [] in
              call fuel' method args []
          end
      end
  | VNone | VStr _ | VTuple _ | VMap _ _ => not_callable
  end.

(** *** comp *)

Definition comp (funcs : list val) : result val :=
  if negb (forallb callable funcs) then Raise AssertionError
  else if Nat.leb (length funcs) 1 then
    match funcs with
    | f :: _ => Ok f
    | [] => Ok VIdentity
    end
  else Ok (VPartial funcs).

(* comp( *funcs )( *args ) *)
Definition comp_call (fuel : nat) (funcs args : list val) : M val :=
  match comp funcs with
  | Ok g => call fuel g args []
  | Raise e => raise e
  end.
End Program.

Notation "'let*' x ':=' m 'in' k" := (bind m (fun x => k))
  (at level 10, x name, m at level 200, k at level 200, only parsing).

(** *** Reading the composition order *)

Section Nesting.
Context {H : Host}.
Variable call : value obj -> list (value obj) -> kwargs obj -> M (value obj).

(** [nested [g1; ...; gk] x] is [g1(g2(...gk(x)...))]: the head of the list
    is the outermost call and the last element is applied to [x] first. *)
Fixpoint nested (gs : list (value obj)) (x : value obj) : M (value obj) :=
  match gs with
  | [] => ret x
  | g :: inner => let* y := nested inner x in call g [y] []
  end.
End Nesting.

(** [construct inst] is the effect of the three assignments of [_instance]
    on the object once the factory has produced [inst]. *)
Definition construct {H : Host} (inst : value obj) (p : LazyInstance)
    : LazyInstance :=
  set_type_hint VNone (set_factory VNone (set_instance inst p)).

(** What [__getattr__] learns from the type hint about [name]. *)
Definition hint_lookup {H : Host} (p : LazyInstance) (name : string)
    : result (value obj) :=
  if _li_strict p then getattr (_li_type_hint p) (VStr name)
  else getattr_default (_li_type_hint p) (VStr name) VNone.

(** The object at [self] is [p] and has consumed its factory. *)
Definition constructed {H : Host} (self : loc) (p : LazyInstance)
    (st : state) : Prop :=
  heap st !! self = Some p /\ _li_factory p = VNone.

(** Running [m] preserves the state property [I], whether [m] returns or
    raises. *)
Definition keeps {H : Host} {A} (I : state -> Prop) (m : M A) : Prop :=
  forall st r st', m st = Some (r, st') -> I st -> I st'.

(** [m'] returns or raises whatever [m] does, and possibly gets further
    where [m] runs out of fuel. *)
Definition refines {H : Host} {A} (m m' : M A) : Prop :=
  forall st r, m st = Some r -> m' st = Some r.

(** What client code can do with the module, one operation at a time. *)
Inductive operation {H : Host} : Type :=
(* LazyInstance(factory, type_hint, strict) *)
| New (factory type_hint : value obj) (strict : bool)
(* proxy.name, for a name that reaches __getattr__ *)
| GetAttr (self : loc) (name : string)
(* proxy._instance *)
| Instance (self : loc)
(* proxy._bind_method( *methods_or_names ) *)
| BindMethod (self : loc) (methods_or_names : list (value obj))
(* f( *args, **kwargs ) for any value at hand, deferred callers included *)
| Call (f : value obj) (args : list (value obj)) (kwargs : kwargs obj).

(** The state after an operation, whether it returned or raised. *)
Definition perform {H : Host} (fuel : nat) (op : operation) (st : state)
    : option state :=
  match op with
  | New factory type_hint strict => snd <$> new factory type_hint strict st
  | GetAttr self name => snd <$> __getattr__ (call fuel) self name st
  | Instance self => snd <$> _instance (call fuel) self st
  | BindMethod self ms => snd <$> _bind_method (call fuel) self ms st
  | Call f args kwargs => snd <$> call fuel f args kwargs st
  end.

(** [later st st']: [st'] is reached from [st] by some sequence of
    operations. *)
Inductive later {H : Host} : state -> state -> Prop :=
| later_now st : later st st
| later_step fuel op st st1 st' :
    perform fuel op st = Some st1 -> later st1 st' -> later st st'.

(** ** A small host program

    Two functions on integers, a class [Widget] with a method [run] and a
    data attribute [size], an unrelated class [Gadget], two factory
    functions, and a factory that fails.  The world counts how often a class
    or a factory has been called. *)

Module Demo.

Inductive object : Type :=
| Int (z : Z)
(* lambda x: x + 1 *)
| Succ
(* lambda x: 2 * x *)
| Double
| Widget
| Gadget
| AWidget
| AGadget
(* Widget.run, looked up on the class *)
| WidgetRun
(* a_widget.run: returns how many arguments it was given *)
| BoundRun
(* def make_widget(): return Widget() *)
| MakeWidget
(* def make_gadget(): return Gadget() *)
| MakeGadget
(* def broken(): raise IOError("no such file") *)
| Broken.

Definition no_attribute : result (value object) :=
  Raise (AttributeError "object has no attribute").

Definition demo_getattr (v : value object) (name : string)
    : result (value object) :=
  match v with
  | VHost Widget =>
      if String.eqb name "run" then Ok (VHost WidgetRun)
      else if String.eqb name "size" then Ok (VHost (Int 0))
      else no_attribute
  | VHost AWidget =>
      if String.eqb name "run" then Ok (VHost BoundRun)
      else if String.eqb name "size" then Ok (VHost (Int 3))
      else no_attribute
  | _ => no_attribute
  end.

Definition demo_call (o : object) (args : list (value object))
    (kwargs : kwargs object) (built : nat) : result (value object) * nat :=
  match o, args, kwargs with
  | Succ, [VHost (Int z)], [] => (Ok (VHost (Int (z + 1))), built)
  | Double, [VHost (Int z)], [] => (Ok (VHost (Int (2 * z))), built)
  | (Widget | MakeWidget), [], [] => (Ok (VHost AWidget), S built)
  | (Gadget | MakeGadget), [], [] => (Ok (VHost AGadget), S built)
  | Broken, [], [] => (Raise (Exception "IOError" "no such file"), S built)
  | BoundRun, _, _ =>
      (Ok (VHost (Int (Z.of_nat (length args + length kwargs)))), built)
  | _, _, _ => (Raise (TypeError "bad arguments"), built)
  end.

Definition host : Host := {|
  obj := object;
  world := nat;
  host_callable o :=
    match o with
    | Int _ | AWidget | AGadget => false
    | _ => true
    end;
  host_is_type o :=
    match o with
    | Widget | Gadget => true
    | _ => false
    end;
  host_isinstance v t :=
    match v, t with
    | VHost AWidget, Widget | VHost AGadget, Gadget => true
    | _, _ => false
    end;
  host_getattr := demo_getattr;
  host_call := demo_call;
  host_type_str _ := "<class 'object'>"
|}.

#[local] Existing Instance host.

Definition int (z : Z) : value object := VHost (Int z).

Definition empty : @state host :=
  {| heap := []; host_world := (0%nat : @world host); trace := [] |}.

(* the address of the first object allocated in [empty] *)
Definition first : loc := 0.

(* the object LazyInstance(factory, type_hint, strict) right after __init__,
   for a type_hint that is a type *)
Definition lazy (factory type_hint : value object) (strict : bool)
    : @LazyInstance host :=
  {| _li_instance := VNone; _li_factory := factory;
     _li_type_hint := type_hint; _li_strict := strict |}.

(* a program state with one LazyInstance object, at address [first] *)
Definition holding (p : @LazyInstance host) (built : nat)
    (calls : list (@event host)) : @state host :=
  {| heap := [p]; host_world := (built : @world host); trace := calls |}.

Definition called (o : object) (args : list (value object)) : @event host :=
  {| callee := (o : @obj host); positional := args; keywords := [] |}.

(* LazyInstance(Widget), LazyInstance(Widget, strict=True),
   LazyInstance(make_gadget, type_hint=Widget), LazyInstance(make_widget) *)
Definition lazy_widget : @LazyInstance host :=
  lazy (VHost Widget) (VHost Widget) false.
Definition strict_widget : @LazyInstance host :=
  lazy (VHost Widget) (VHost Widget) true.
Definition gadget_as_widget : @LazyInstance host :=
  lazy (VHost MakeGadget) (VHost Widget) false.
Definition made_widget : @LazyInstance host :=
  lazy (VHost MakeWidget) VNone false.

End Demo.

(** ** The several-argument branch of _bind_method and whole-heap invariants *)

(** [[f(x) for x in items]], evaluated in order. *)
Fixpoint map_list {H : Host} (f : value obj -> M (value obj))
    (items : list (value obj)) : M (list (value obj)) :=
  match items with
  | [] => ret []
  | x :: rest =>
      let* y := f x in
      let* ys := map_list f rest in
      ret (y :: ys)
  end.

(** [list(map(self._li_bind_method_impl, methods_or_names))]: running the
    iterator that [_bind_method] returns for several arguments to its end. *)
Definition map_items {H : Host} (fuel : nat) (self : loc)
    (methods_or_names : list (value obj)) : M (list (value obj)) :=
  map_list (_li_bind_method_impl (call fuel) self) methods_or_names.

(** What [_li_bind_method_impl] turns its argument into: callables are kept,
    anything else becomes a getter. *)
Definition accessor {H : Host} (method_or_name : value obj) : value obj :=
  if callable method_or_name then method_or_name
  else VMethodcaller method_or_name.

(** A state property that the primitive steps of the module preserve:
    host calls, the three assignments of [_instance] on any object, and the
    allocation of a new object by [__init__]. *)
Definition stable {H : Host} (I : state -> Prop) : Prop :=
  (forall st w t,
     I st -> I {| heap := heap st; host_world := w; trace := t |}) /\
  (forall st self v, I st -> I (store self (set_instance v) st)) /\
  (forall st self, I st -> I (store self (set_factory VNone) st)) /\
  (forall st self, I st -> I (store self (set_type_hint VNone) st)) /\
  (forall st factory type_hint strict p,
     __init__ factory type_hint strict = Ok p ->
     I st ->
     I {| heap := heap st ++ [p]; host_world := host_world st;
          trace := trace st |}).

(** Every type hint in the heap is [None] or a type. *)
Definition hints_are_types {H : Host} (st : state) : Prop :=
  forall self p,
    heap st !! self = Some p ->
    is_none (_li_type_hint p) = true \/ is_type (_li_type_hint p) = true.

(** [p'] is what [p] can become: the same [strict] flag, and the factory and
    the type hint either as they were or cleared. *)
Definition evolved {H : Host} (p p' : LazyInstance) : Prop :=
  _li_strict p' = _li_strict p /\
  (_li_factory p' = _li_factory p \/ _li_factory p' = VNone) /\
  (_li_type_hint p' = _li_type_hint p \/ _li_type_hint p' = VNone).

Definition evolves_from {H : Host} (self : loc) (p : LazyInstance)
    (st : state) : Prop :=
  exists p', heap st !! self = Some p' /\ evolved p p'.

(** Some states of the small host program. *)
Module DemoStates.
Import Demo.
#[local] Existing Instance Demo.host.

(* LazyInstance(Widget) before and after its first forced access *)
Definition fresh_widget : @state Demo.host := holding lazy_widget 0 [].

Definition built_widget : @LazyInstance Demo.host :=
  construct (VHost AWidget) lazy_widget.

Definition widget_built : @state Demo.host :=
  holding built_widget 1 [called Widget []].

(* LazyInstance(make_widget) after its first forced access *)
Definition made_built : @state Demo.host :=
  holding (construct (VHost AWidget) made_widget) 1 [called MakeWidget []].





End DemoStates.

(** ** Properties of the computations *)

Section Properties.
Context {H : Host}.

Implicit Types (st : state) (p : LazyInstance) (self : loc).
Implicit Types
  (c : value obj -> list (value obj) -> kwargs obj -> M (value obj)).

Lemma getfield_lookup {A} self (field : LazyInstance -> A) st p :
  heap st !! self = Some p -> getfield self field st = Some (Ok (field p), st).
Proof. intros Hp. unfold getfield. now rewrite Hp. Qed.

Lemma setfield_lookup self upd st p :
  heap st !! self = Some p ->
  setfield self upd st = Some (Ok tt, store self upd st).
Proof. intros Hp. unfold setfield. now rewrite Hp. Qed.

Lemma lookup_store self upd st p :
  heap st !! self = Some p -> heap (store self upd st) !! self = Some (upd p).
Proof.
  intros Hp. unfold store. cbn [heap].
  now rewrite list_lookup_alter_eq, Hp.
Qed.

Lemma store_store self f g st :
  store self f (store self g st) = store self (fun p => f (g p)) st.
Proof.
  unfold store. cbn [heap host_world trace].
  now rewrite list_alter_alter_eq.
Qed.

(** The object at [self] once the three assignments of [_instance] have
    been carried out on it. *)
Lemma store_construct self inst st :
  store self (set_type_hint VNone)
    (store self (set_factory VNone) (store self (set_instance inst) st))
  = store self (construct inst) st.
Proof. now rewrite !store_store. Qed.

(** A constructed object answers from its cache: nothing is called and the
    state does not change. *)
Lemma instance_cached c self st p :
  heap st !! self = Some p ->
  _li_factory p = VNone ->
  _instance c self st = Some (Ok (_li_instance p), st).
Proof.
  intros Hp Hf. unfold _instance, bind.
  rewrite (getfield_lookup _ _ _ _ Hp), Hf. cbn.
  now rewrite (getfield_lookup _ _ _ _ Hp).
Qed.

(** The first forced access: one call of the factory, then the object is
    marked as constructed. *)
Lemma instance_forced c self st p inst st1 :
  heap st !! self = Some p ->
  is_none (_li_factory p) = false ->
  c (_li_factory p) [] [] st = Some (Ok inst, st1) ->
  heap st1 !! self = Some p ->
  (if is_none (_li_type_hint p) then Ok true
   else isinstance inst (_li_type_hint p)) = Ok true ->
  _instance c self st = Some (Ok inst, store self (construct inst) st1).
Proof.
  intros Hp Hf Hc Hp1 Hi. unfold _instance, bind.
  rewrite (getfield_lookup _ _ _ _ Hp), Hf. cbn [negb].
  rewrite Hc, (setfield_lookup _ _ _ _ Hp1).
  pose proof (lookup_store self (set_instance inst) st1 p Hp1) as Hp2.
  rewrite (getfield_lookup _ _ _ _ Hp2). cbn [set_instance _li_type_hint].
  destruct (is_none (_li_type_hint p)).
  - unfold ret. cbn.
    rewrite (setfield_lookup _ _ _ _ Hp2).
    pose proof (lookup_store self (set_factory VNone) _ _ Hp2) as Hp3.
    rewrite (setfield_lookup _ _ _ _ Hp3).
    pose proof (lookup_store self (set_type_hint VNone) _ _ Hp3) as Hp4.
    rewrite (getfield_lookup _ _ _ _ Hp4), store_construct. reflexivity.
  - rewrite (getfield_lookup _ _ _ _ Hp2). cbn [set_instance _li_instance].
    unfold lift. rewrite Hi. unfold ret. cbn.
    rewrite (setfield_lookup _ _ _ _ Hp2).
    pose proof (lookup_store self (set_factory VNone) _ _ Hp2) as Hp3.
    rewrite (setfield_lookup _ _ _ _ Hp3).
    pose proof (lookup_store self (set_type_hint VNone) _ _ Hp3) as Hp4.
    rewrite (getfield_lookup _ _ _ _ Hp4), store_construct. reflexivity.
Qed.

(** A product of the wrong type: the assertion fails after the product has
    been stored and before the factory is cleared. *)
Lemma instance_mismatch c self st p inst st1 :
  heap st !! self = Some p ->
  is_none (_li_factory p) = false ->
  c (_li_factory p) [] [] st = Some (Ok inst, st1) ->
  heap st1 !! self = Some p ->
  is_none (_li_type_hint p) = false ->
  isinstance inst (_li_type_hint p) = Ok false ->
  _instance c self st
  = Some (Raise AssertionError, store self (set_instance inst) st1).
Proof.
  intros Hp Hf Hc Hp1 Hh Hi. unfold _instance, bind.
  rewrite (getfield_lookup _ _ _ _ Hp), Hf. cbn [negb].
  rewrite Hc, (setfield_lookup _ _ _ _ Hp1).
  pose proof (lookup_store self (set_instance inst) st1 p Hp1) as Hp2.
  rewrite (getfield_lookup _ _ _ _ Hp2). cbn [set_instance _li_type_hint].
  rewrite Hh, (getfield_lookup _ _ _ _ Hp2). cbn [set_instance _li_instance].
  unfold lift. rewrite Hi. reflexivity.
Qed.


(** *** Fuel

    Fuel bounds the depth of calls and nothing else: a computation that
    completes with some fuel completes with the same outcome with more. *)

Lemma refines_refl {A} (m : M A) : refines m m.
Proof. now intros st r. Qed.

Lemma refines_bind {A B} (m m' : M A) (k k' : A -> M B) :
  refines m m' -> (forall a, refines (k a) (k' a)) ->
  refines (bind m k) (bind m' k').
Proof.
  intros Hm Hk st r Hrun. unfold bind in *.
  destruct (m st) as [[[a|e] st1]|] eqn:E; [| |easy];
    rewrite (Hm _ _ E); [now apply Hk|exact Hrun].
Qed.

Lemma refines_instance c c' self :
  (forall f args kwargs, refines (c f args kwargs) (c' f args kwargs)) ->
  refines (_instance c self) (_instance c' self).
Proof.
  intros Hc. unfold _instance.
  apply refines_bind; [apply refines_refl|intros factory].
  apply refines_bind; [|intros _; apply refines_refl].
  destruct (negb (is_none factory)); [|apply refines_refl].
  apply refines_bind; [apply Hc|intros inst; apply refines_refl].
Qed.

Lemma refines_reduce c c' fs x :
  (forall f args kwargs, refines (c f args kwargs) (c' f args kwargs)) ->
  refines (reduce (rapply c) fs x) (reduce (rapply c') fs x).
Proof.
  intros Hc. revert x. induction fs as [|f fs IH]; intros x; cbn [reduce].
  - apply refines_refl.
  - apply refines_bind; [apply Hc|exact IH].
Qed.

Lemma call_more_fuel fuel f args kwargs :
  refines (call fuel f args kwargs) (call (S fuel) f args kwargs).
Proof.
  revert f args kwargs. induction fuel as [|fuel IH]; intros f args kwargs.
  - destruct f; try apply refines_refl; now intros st r.
  - destruct f; try apply refines_refl.
    + cbn [call]. destruct kwargs; [|apply refines_refl].
      destruct args as [|? [|]]; try apply refines_refl.
      * destruct funcs; [apply refines_refl|now apply refines_reduce].
      * now apply refines_reduce.
    + cbn [call]. destruct kwargs; [|apply refines_refl].
      apply refines_bind; [now apply refines_instance|intros inst].
      apply refines_bind; [apply IH|intros method; apply IH].
Qed.

Lemma call_fuel_le fuel fuel' f args kwargs :
  fuel <= fuel' ->
  refines (call fuel f args kwargs) (call fuel' f args kwargs).
Proof.
  induction 1 as [|fuel' _ IH]; [apply refines_refl|].
  intros st r Hrun. now apply call_more_fuel, IH.
Qed.

(** The outcome of a call does not depend on the fuel that was enough. *)
Lemma call_deterministic fuel fuel' f args kwargs st r r' :
  call fuel f args kwargs st = Some r ->
  call fuel' f args kwargs st = Some r' ->
  r = r'.
Proof.
  intros Hr Hr'. destruct (Nat.le_ge_cases fuel fuel') as [Hle|Hle].
  - apply (call_fuel_le _ _ _ _ _ Hle) in Hr. congruence.
  - apply (call_fuel_le _ _ _ _ _ Hle) in Hr'. congruence.
Qed.

(** *** Constructed objects stay constructed

    Whatever is called, an object that has consumed its factory is never
    written to again: there is no way back from constructed to
    unconstructed. *)

Lemma keeps_ret {A} (I : state -> Prop) (a : A) : keeps I (ret a).
Proof. intros st r st' [= <- <-]. auto. Qed.

Lemma keeps_raise {A} (I : state -> Prop) e : keeps I (@raise _ A e).
Proof. intros st r st' [= <- <-]. auto. Qed.

Lemma keeps_lift {A} (I : state -> Prop) (x : result A) : keeps I (lift x).
Proof. intros st r st' [= <- <-]. auto. Qed.

Lemma keeps_out_of_fuel {A} (I : state -> Prop) : keeps I (@out_of_fuel _ A).
Proof. intros st r st' [=]. Qed.

Lemma keeps_bind {A B} (I : state -> Prop) (m : M A) (k : A -> M B) :
  keeps I m -> (forall a, keeps I (k a)) -> keeps I (bind m k).
Proof.
  intros Hm Hk st r st' Hrun HI. unfold bind in Hrun.
  destruct (m st) as [[[a|e] st1]|] eqn:E; [|injection Hrun as <- <-|easy].
  - exact (Hk a _ _ _ Hrun (Hm _ _ _ E HI)).
  - exact (Hm _ _ _ E HI).
Qed.

Lemma keeps_getfield {A} (I : state -> Prop) self (field : LazyInstance -> A) :
  keeps I (getfield self field).
Proof.
  intros st r st' Hrun. unfold getfield in Hrun.
  destruct (heap st !! self); [|easy]. now injection Hrun as <- <-.
Qed.

Lemma keeps_setfield_other self p other upd :
  other <> self -> keeps (constructed self p) (setfield other upd).
Proof.
  intros Hne st r st' Hrun [Hp Hf]. unfold setfield in Hrun.
  destruct (heap st !! other); [|easy]. injection Hrun as <- <-.
  split; [|exact Hf]. unfold store. cbn [heap].
  now rewrite list_lookup_alter_ne.
Qed.

Lemma keeps_invoke self p o args kwargs :
  keeps (constructed self p) (invoke o args kwargs).
Proof.
  intros st r st' Hrun HI. unfold invoke in Hrun.
  destruct (host_call o args kwargs (host_world st)).
  now injection Hrun as <- <-.
Qed.

Lemma keeps_instance c self p other :
  (forall f args kwargs, keeps (constructed self p) (c f args kwargs)) ->
  keeps (constructed self p) (_instance c other).
Proof.
  intros Hc. destruct (Nat.eq_dec other self) as [->|Hne].
  - intros st r st' Hrun [Hp Hf].
    rewrite (instance_cached _ _ _ _ Hp Hf) in Hrun.
    now injection Hrun as <- <-.
  - unfold _instance.
    apply keeps_bind; [apply keeps_getfield|intros factory].
    apply keeps_bind; [|intros _; apply keeps_getfield].
    destruct (negb (is_none factory)); [|apply keeps_ret].
    apply keeps_bind; [apply Hc|intros inst].
    apply keeps_bind; [now apply keeps_setfield_other|intros _].
    apply keeps_bind; [apply keeps_getfield|intros type_hint].
    apply keeps_bind.
    { destruct (is_none type_hint); [apply keeps_ret|].
      apply keeps_bind; [apply keeps_getfield|intros ?; apply keeps_lift]. }
    intros holds.
    apply keeps_bind; [destruct holds; [apply keeps_ret|apply keeps_raise]|].
    intros _.
    apply keeps_bind; [now apply keeps_setfield_other|intros _].
    now apply keeps_setfield_other.
Qed.

Lemma keeps_reduce c self p fs x :
  (forall f args kwargs, keeps (constructed self p) (c f args kwargs)) ->
  keeps (constructed self p) (reduce (rapply c) fs x).
Proof.
  intros Hc. revert x. induction fs as [|f fs IH]; intros x; cbn [reduce].
  - apply keeps_ret.
  - apply keeps_bind; [apply Hc|exact IH].
Qed.

Lemma keeps_call self p fuel f args kwargs :
  keeps (constructed self p) (call fuel f args kwargs).
Proof.
  revert f args kwargs. induction fuel as [|fuel IH]; intros f args kwargs.
  - destruct f; cbn [call]; try apply keeps_out_of_fuel;
      try apply keeps_raise.
    + destruct (host_callable o); [apply keeps_invoke|apply keeps_raise].
    + destruct args as [|? [|]], kwargs; try apply keeps_raise.
      apply keeps_ret.
    + destruct args as [|? [|]], kwargs; try apply keeps_raise.
      apply keeps_lift.
  - destruct f; cbn [call]; try apply keeps_raise.
    + destruct (host_callable o); [apply keeps_invoke|apply keeps_raise].
    + destruct args as [|? [|]], kwargs; try apply keeps_raise.
      apply keeps_ret.
    + destruct kwargs; [|apply keeps_raise].
      destruct args as [|? [|]]; try apply keeps_raise.
      * destruct funcs; [apply keeps_raise|now apply keeps_reduce].
      * now apply keeps_reduce.
    + destruct args as [|? [|]], kwargs; try apply keeps_raise.
      apply keeps_lift.
    + destruct kwargs; [|apply keeps_raise].
      apply keeps_bind; [now apply keeps_instance|intros inst].
      apply keeps_bind; [apply IH|intros method; apply IH].
Qed.

Lemma keeps_bind_impl c self p other m :
  (forall f args kwargs, keeps (constructed self p) (c f args kwargs)) ->
  keeps (constructed self p) (_li_bind_method_impl c other m).
Proof.
  intros Hc. unfold _li_bind_method_impl.
  apply keeps_bind; [apply keeps_getfield|intros factory].
  destruct (is_none factory); [|apply keeps_ret].
  apply keeps_bind; [apply keeps_getfield|intros inst; apply Hc].
Qed.

Lemma keeps_getattr c self p other name :
  (forall f args kwargs, keeps (constructed self p) (c f args kwargs)) ->
  keeps (constructed self p) (__getattr__ c other name).
Proof.
  intros Hc. unfold __getattr__.
  apply keeps_bind; [apply keeps_getfield|intros type_hint].
  apply keeps_bind.
  { destruct (negb (is_none type_hint)); [|apply keeps_ret].
    apply keeps_bind; [apply keeps_getfield|intros strict].
    apply keeps_bind; [apply keeps_lift|intros ?; apply keeps_ret]. }
  intros [|]; [now apply keeps_bind_impl|].
  apply keeps_bind; [now apply keeps_instance|intros ?; apply keeps_lift].
Qed.

Lemma keeps_bind_method c self p other ms :
  (forall f args kwargs, keeps (constructed self p) (c f args kwargs)) ->
  keeps (constructed self p) (_bind_method c other ms).
Proof.
  intros Hc. unfold _bind_method.
  destruct (Nat.eqb (length ms) 1); [now apply keeps_bind_impl|apply keeps_ret].
Qed.

Lemma keeps_new self p factory type_hint strict :
  keeps (constructed self p) (new factory type_hint strict).
Proof.
  intros st r st' Hrun [Hp Hf]. unfold new in Hrun.
  destruct (__init__ factory type_hint strict); injection Hrun as <- <-;
    split; try assumption.
  cbn [heap]. rewrite lookup_app_l; [assumption|].
  now apply lookup_lt_Some with p.
Qed.

Lemma perform_constructed fuel op self p st st' :
  perform fuel op st = Some st' ->
  constructed self p st -> constructed self p st'.
Proof.
  assert (forall A (m : M A), keeps (constructed self p) m ->
            snd <$> m st = Some st' ->
            constructed self p st -> constructed self p st') as Hrun.
  { intros A m Hm E. destruct (m st) as [[r st1]|] eqn:Em; [|easy].
    injection E as <-. exact (Hm _ _ _ Em). }
  destruct op; cbn [perform]; apply Hrun.
  - apply keeps_new.
  - apply keeps_getattr, keeps_call.
  - apply keeps_instance, keeps_call.
  - apply keeps_bind_method, keeps_call.
  - apply keeps_call.
Qed.

(** No transition leads from constructed back to unconstructed: from then
    on, whatever has happened in between, [_instance] answers from the cache
    and touches nothing. *)
Lemma constructed_forever c self p st st' :
  later st st' ->
  constructed self p st ->
  constructed self p st' /\
  _instance c self st' = Some (Ok (_li_instance p), st').
Proof.
  intros Hlater. induction Hlater as [st|fuel op st st1 st' Hop _ IH].
  - intros [Hp Hf]. split; [now split|]. now apply instance_cached.
  - intros HI. apply IH. exact (perform_constructed _ _ _ _ _ _ Hop HI).
Qed.

(** *** comp *)

Lemma reduce_snoc c fs f x st :
  reduce (rapply c) (fs ++ [f]) x st
  = (let* y := reduce (rapply c) fs x in c f [y] []) st.
Proof.
  revert x st. induction fs as [|g fs IH]; intros x st; cbn [app reduce].
  - unfold bind, rapply, ret. now destruct (c f [x] [] st) as [[[]]|].
  - unfold bind. destruct (rapply c x g st) as [[[y|e] st']|]; [|reflexivity..].
    rewrite IH. reflexivity.
Qed.

(** [reduce] over [f1; ...; fn] applies [f1] first and [fn] last. *)
Lemma reduce_nested c fs x st :
  reduce (rapply c) fs x st = nested c (rev fs) x st.
Proof.
  revert x st. induction fs as [|f fs IH] using rev_ind; intros x st.
  - reflexivity.
  - rewrite reduce_snoc, rev_unit. cbn [nested]. unfold bind.
    now rewrite IH.
Qed.

Lemma nested_host_total fuel (gs : list (value obj)) x st :
  Forall (fun g => exists o, g = VHost o) gs ->
  is_Some (nested (call fuel) gs x st).
Proof.
  intros Hgs. revert st. induction Hgs as [|g gs [o ->] _ IH]; intros st.
  - now eexists.
  - cbn [nested]. unfold bind.
    destruct (IH st) as [[[y|e] st1] ->]; [|now eexists].
    destruct fuel; cbn [call]; (destruct (host_callable o); [|now eexists]);
      unfold invoke; destruct (host_call o [y] [] (host_world st1));
      now eexists.
Qed.

(** C1, as amended: for callables [f1, ..., fn], [comp(f1, ..., fn)] is a
    callable [g] with [g(x) = fn(...f2(f1(x))...)]: the functions are applied
    from left to right, the first-declared one being applied to the input
    first.  Whenever the nested application completes, so does [g(x)], with
    the same outcome; with two or more functions both sides are the same
    computation; and for functions of the host program [g(x)] always
    completes. *)
Theorem comp_left_to_right fuel (funcs : list (value obj)) x st :
  forallb callable funcs = true ->
  exists g,
    comp funcs = Ok g /\
    refines (nested (call fuel) (rev funcs) x) (call (S fuel) g [x] []) /\
    (2 <= length funcs ->
     call (S fuel) g [x] [] st = nested (call fuel) (rev funcs) x st) /\
    (Forall (fun f => exists o, f = VHost o) funcs ->
     is_Some (call (S fuel) g [x] [] st)).
Proof.
  intros Hc.
  assert (exists g, comp funcs = Ok g /\
            refines (nested (call fuel) (rev funcs) x)
                    (call (S fuel) g [x] []) /\
            (2 <= length funcs ->
             call (S fuel) g [x] [] st = nested (call fuel) (rev funcs) x st))
    as (g & Hg & Href & Heq).
  { unfold comp. rewrite Hc. cbn [negb].
    destruct funcs as [|f [|f' fs]]; cbn [length Nat.leb].
    - exists VIdentity. split; [reflexivity|]. split.
      + apply refines_refl.
      + cbn. lia.
    - exists f. split; [reflexivity|]. split.
      + intros st0 r Hr. apply call_more_fuel. exact Hr.
      + cbn. lia.
    - exists (VPartial (f :: f' :: fs)).
      assert (forall st0, call (S fuel) (VPartial (f :: f' :: fs)) [x] [] st0
                = nested (call fuel) (rev (f :: f' :: fs)) x st0) as E
        by (intros st0; cbn [call]; apply reduce_nested).
      split; [reflexivity|]. split.
      + intros st0 r Hr. now rewrite E.
      + intros _. apply E. }
  exists g. split; [exact Hg|]. split; [exact Href|]. split; [exact Heq|].
  intros Hhost.
  destruct (nested_host_total fuel (rev funcs) x st) as [r Hr];
    [now apply Forall_rev|].
  exists r. now apply Href.
Qed.

(** For two functions: [comp(f, g)(x)] is [g(f(x))]. *)
Lemma comp_two fuel (f g x : value obj) st :
  callable f = true ->
  callable g = true ->
  comp_call (S fuel) [f; g] [x] st
  = (let* y := call fuel f [x] [] in call fuel g [y] []) st.
Proof.
  intros Hf Hg. unfold comp_call, comp. cbn [forallb]. rewrite Hf, Hg.
  cbn [andb negb length Nat.leb call reduce]. unfold bind, rapply, ret.
  destruct (call fuel f [x] [] st) as [[[y|e] st']|]; [|reflexivity..].
  now destruct (call fuel g [y] [] st') as [[[]]|].
Qed.

(** C9: [comp()] is the identity, it returns its argument unchanged and
    calls nothing; [comp(f)] is the object [f] itself. *)
Theorem comp_degenerate fuel (f x : value obj) st :
  comp [] = Ok VIdentity /\
  comp_call fuel [] [x] st = Some (Ok x, st) /\
  comp [f] = if callable f then Ok f else Raise AssertionError.
Proof.
  repeat split.
  - now destruct fuel.
  - unfold comp. cbn [forallb]. rewrite andb_true_r. now destruct (callable f).
Qed.

Lemma comp_not_callable (funcs : list (value obj)) f :
  In f funcs -> callable f = false -> comp funcs = Raise AssertionError.
Proof.
  intros Hin Hf. unfold comp.
  destruct (forallb callable funcs) eqn:Hall; [|reflexivity].
  rewrite forallb_forall in Hall. specialize (Hall f Hin). congruence.
Qed.

(** C3: [comp] with an argument that is not callable fails its assertion
    when it is built, before anything is called, and [LazyInstance] with a
    [type_hint] that is neither [None] nor a type raises [TypeError] when
    it is constructed. *)
Theorem construction_contract fuel (funcs args : list (value obj)) f
    factory type_hint strict st :
  (In f funcs -> callable f = false ->
   comp funcs = Raise AssertionError /\
   comp_call fuel funcs args st = Some (Raise AssertionError, st)) /\
  (is_none type_hint = false -> is_type type_hint = false ->
   __init__ factory type_hint strict = Raise (type_hint_error type_hint) /\
   new factory type_hint strict st
   = Some (Raise (type_hint_error type_hint), st)).
Proof.
  split.
  - intros Hin Hf. pose proof (comp_not_callable funcs f Hin Hf) as E.
    split; [exact E|]. unfold comp_call. now rewrite E.
  - intros Hn Ht.
    assert (__init__ factory type_hint strict
            = Raise (type_hint_error type_hint)) as E.
    { unfold __init__. now rewrite Hn, Ht. }
    split; [exact E|]. unfold new. now rewrite E.
Qed.

(** *** Attribute access and deferred callers *)

Lemma bind_impl_unconstructed c self m st p :
  heap st !! self = Some p ->
  is_none (_li_factory p) = false ->
  _li_bind_method_impl c self m st
  = Some (Ok (VDeferred self (if callable m then m else VMethodcaller m)), st).
Proof.
  intros Hp Hf. unfold _li_bind_method_impl, bind.
  rewrite (getfield_lookup _ _ _ _ Hp), Hf. unfold ret.
  now destruct (callable m).
Qed.

Lemma bind_impl_constructed c self m st p :
  heap st !! self = Some p ->
  _li_factory p = VNone ->
  _li_bind_method_impl c self m st
  = c (if callable m then m else VMethodcaller m) [_li_instance p] [] st.
Proof.
  intros Hp Hf. unfold _li_bind_method_impl, bind.
  rewrite (getfield_lookup _ _ _ _ Hp), Hf. cbn [is_none].
  rewrite (getfield_lookup _ _ _ _ Hp). now destruct (callable m).
Qed.

(** A name the type hint resolves to a callable is bound, not fetched. *)
Lemma getattr_binds c self name st p v :
  heap st !! self = Some p ->
  is_none (_li_type_hint p) = false ->
  hint_lookup p name = Ok v ->
  callable v = true ->
  __getattr__ c self name st = _li_bind_method_impl c self (VStr name) st.
Proof.
  intros Hp Hh Hl Hv. unfold __getattr__, bind at 1.
  rewrite (getfield_lookup _ _ _ _ Hp). unfold bind at 1. rewrite Hh.
  cbn [negb]. unfold bind at 1. rewrite (getfield_lookup _ _ _ _ Hp).
  unfold bind at 1, lift. unfold hint_lookup in Hl. rewrite Hl.
  unfold ret. now rewrite Hv.
Qed.

(** Every other name is fetched from the real instance. *)
Lemma getattr_delegates c self name st p :
  heap st !! self = Some p ->
  (is_none (_li_type_hint p) = true \/
   exists v, hint_lookup p name = Ok v /\ callable v = false) ->
  __getattr__ c self name st
  = (let* inst := _instance c self in lift (getattr inst (VStr name))) st.
Proof.
  intros Hp Hcase. unfold __getattr__, bind at 1.
  rewrite (getfield_lookup _ _ _ _ Hp). unfold bind at 1.
  destruct Hcase as [Hh|(v & Hl & Hv)].
  - rewrite Hh. reflexivity.
  - destruct (is_none (_li_type_hint p)); [reflexivity|]. cbn [negb].
    unfold bind at 1. rewrite (getfield_lookup _ _ _ _ Hp).
    unfold bind at 1, lift. unfold hint_lookup in Hl. rewrite Hl.
    unfold ret. now rewrite Hv.
Qed.

(** Invoking a deferred caller with positional arguments. *)
Lemma deferred_call fuel self m args st :
  call (S fuel) (VDeferred self m) args [] st
  = (let* inst := _instance (call fuel) self in
     let* method := call fuel m [inst] [] in
     call fuel method args []) st.
Proof. reflexivity. Qed.

(** C4: when the factory returns an object that is not an instance of the
    type hint, every access that forces the instance raises
    [AssertionError]: the property [_instance] itself, [__getattr__] for a
    name that is not bound as a method, and the call of a deferred caller.
    The factory has been called once and the error is propagated. *)
Theorem type_hint_mismatch fuel self name m args st p inst st1 :
  heap st !! self = Some p ->
  is_none (_li_factory p) = false ->
  is_none (_li_type_hint p) = false ->
  call fuel (_li_factory p) [] [] st = Some (Ok inst, st1) ->
  heap st1 !! self = Some p ->
  isinstance inst (_li_type_hint p) = Ok false ->
  let failed :=
    Some (Raise AssertionError, store self (set_instance inst) st1) in
  _instance (call fuel) self st = failed /\
  ((exists v, hint_lookup p name = Ok v /\ callable v = false) ->
   __getattr__ (call fuel) self name st = failed) /\
  call (S fuel) (VDeferred self m) args [] st = failed.
Proof.
  intros Hp Hf Hh Hc Hp1 Hi failed.
  pose proof (instance_mismatch _ _ _ _ _ _ Hp Hf Hc Hp1 Hh Hi) as E.
  split; [exact E|]. split.
  - intros Hl. rewrite (getattr_delegates _ _ _ _ _ Hp (or_intror Hl)).
    unfold bind. now rewrite E.
  - rewrite deferred_call. unfold bind. now rewrite E.
Qed.

(** C6: in strict mode a name the type hint does not have raises the
    [AttributeError] of the lookup on the type hint; the state is left as it
    was, so the factory has not been called and the object is still
    unconstructed. *)
Theorem strict_missing_attribute c self name st p msg :
  heap st !! self = Some p ->
  is_none (_li_type_hint p) = false ->
  _li_strict p = true ->
  host_getattr (_li_type_hint p) name = Raise (AttributeError msg) ->
  __getattr__ c self name st = Some (Raise (AttributeError msg), st).
Proof.
  intros Hp Hh Hs Hl. unfold __getattr__, bind at 1.
  rewrite (getfield_lookup _ _ _ _ Hp). unfold bind at 1. rewrite Hh.
  cbn [negb]. unfold bind at 1. rewrite (getfield_lookup _ _ _ _ Hp), Hs.
  unfold bind at 1, lift. cbn [getattr]. now rewrite Hl.
Qed.

(** C7: without strict mode a name the type hint does not have is not an
    error of the lookup: the access forces the instance and is answered by
    the real instance, with whatever its own attribute access returns or
    raises. *)
Theorem nonstrict_missing_attribute c self name st p msg :
  heap st !! self = Some p ->
  is_none (_li_type_hint p) = false ->
  _li_strict p = false ->
  host_getattr (_li_type_hint p) name = Raise (AttributeError msg) ->
  __getattr__ c self name st
  = (let* inst := _instance c self in lift (getattr inst (VStr name))) st /\
  forall inst st1,
    is_none (_li_factory p) = false ->
    c (_li_factory p) [] [] st = Some (Ok inst, st1) ->
    heap st1 !! self = Some p ->
    isinstance inst (_li_type_hint p) = Ok true ->
    __getattr__ c self name st
    = Some (host_getattr inst name, store self (construct inst) st1).
Proof.
  intros Hp Hh Hs Hl.
  assert (__getattr__ c self name st
          = (let* inst := _instance c self in
             lift (getattr inst (VStr name))) st) as E.
  { apply (getattr_delegates _ _ _ _ _ Hp). right. exists VNone.
    unfold hint_lookup, getattr_default. rewrite Hs. cbn [getattr].
    now rewrite Hl. }
  split; [exact E|]. intros inst st1 Hf Hc Hp1 Hi. rewrite E. unfold bind.
  rewrite (instance_forced _ _ _ _ _ _ Hp Hf Hc Hp1); [reflexivity|].
  now rewrite Hh.
Qed.

(** C8, as amended: for an unconstructed object whose type hint resolves
    [name] to a callable, [__getattr__] returns a deferred caller and leaves
    the state alone.  Invoked with positional arguments, the caller forces
    the instance if that has not happened yet, fetches [name] from the real
    instance and calls it with those arguments.  (The caller accepts no
    keyword arguments.) *)
Theorem deferred_method_call c self name st p v :
  heap st !! self = Some p ->
  is_none (_li_factory p) = false ->
  is_none (_li_type_hint p) = false ->
  hint_lookup p name = Ok v ->
  callable v = true ->
  let caller := VDeferred self (VMethodcaller (VStr name)) in
  __getattr__ c self name st = Some (Ok caller, st) /\
  (forall fuel args st' inst st1 method,
     heap st' !! self = Some p ->
     call fuel (_li_factory p) [] [] st' = Some (Ok inst, st1) ->
     heap st1 !! self = Some p ->
     isinstance inst (_li_type_hint p) = Ok true ->
     host_getattr inst name = Ok method ->
     call (S fuel) caller args [] st'
     = call fuel method args [] (store self (construct inst) st1)) /\
  (forall fuel args st' p' method,
     heap st' !! self = Some p' ->
     _li_factory p' = VNone ->
     host_getattr (_li_instance p') name = Ok method ->
     call (S fuel) caller args [] st' = call fuel method args [] st').
Proof.
  intros Hp Hf Hh Hl Hv caller. repeat split.
  - rewrite (getattr_binds _ _ _ _ _ _ Hp Hh Hl Hv).
    now rewrite (bind_impl_unconstructed _ _ _ _ _ Hp Hf).
  - intros fuel args st' inst st1 method Hp' Hc Hp1 Hi Hm.
    unfold caller. rewrite deferred_call. unfold bind.
    rewrite (instance_forced _ _ _ _ _ _ Hp' Hf Hc Hp1) by now rewrite Hh.
    destruct fuel; cbn [call methodcaller lift getattr]; now rewrite Hm.
  - intros fuel args st' p' method Hp' Hf' Hm.
    unfold caller. rewrite deferred_call. unfold bind.
    rewrite (instance_cached _ _ _ _ Hp' Hf').
    destruct fuel; cbn [call methodcaller lift getattr]; now rewrite Hm.
Qed.

(** *** _bind_method *)

(** With one argument [_bind_method] binds the argument tuple, not its
    element.  On an unconstructed object the result is a deferred caller
    whose getter asks for an attribute named by a tuple. *)
Lemma bind_method_single c self (method_or_name : value obj) st p :
  heap st !! self = Some p ->
  is_none (_li_factory p) = false ->
  _bind_method c self [method_or_name] st
  = Some (Ok (VDeferred self (VMethodcaller (VTuple [method_or_name]))), st).
Proof.
  intros Hp Hf. unfold _bind_method. cbn [length Nat.eqb].
  now rewrite (bind_impl_unconstructed _ _ _ _ _ Hp Hf).
Qed.

(** Invoking that caller forces the instance and then fails in [getattr]. *)
Lemma bind_method_single_call fuel self (method_or_name : value obj) args
    st p inst st1 :
  heap st !! self = Some p ->
  is_none (_li_factory p) = false ->
  call fuel (_li_factory p) [] [] st = Some (Ok inst, st1) ->
  heap st1 !! self = Some p ->
  (if is_none (_li_type_hint p) then Ok true
   else isinstance inst (_li_type_hint p)) = Ok true ->
  call (S fuel) (VDeferred self (VMethodcaller (VTuple [method_or_name])))
    args [] st
  = Some (Raise (TypeError "attribute name must be string"),
          store self (construct inst) st1).
Proof.
  intros Hp Hf Hc Hp1 Hi. rewrite deferred_call. unfold bind.
  rewrite (instance_forced _ _ _ _ _ _ Hp Hf Hc Hp1 Hi).
  now destruct fuel.
Qed.

(** *** The factory argument *)

Lemma call_not_callable fuel (f : value obj) args kwargs st :
  callable f = false ->
  call fuel f args kwargs st
  = Some (Raise (TypeError "object is not callable"), st).
Proof.
  intros Hf. destruct f; cbn in Hf; try discriminate; destruct fuel;
    cbn [call]; try reflexivity; now rewrite Hf.
Qed.

(** With a function of the host program as factory, the first forced access
    adds exactly one entry to the trace: the call of the factory without
    arguments. *)
Lemma host_factory_forced fuel self st p o inst w :
  heap st !! self = Some p ->
  _li_factory p = VHost o ->
  host_callable o = true ->
  host_call o [] [] (host_world st) = (Ok inst, w) ->
  (if is_none (_li_type_hint p) then Ok true
   else isinstance inst (_li_type_hint p)) = Ok true ->
  _instance (call fuel) self st
  = Some (Ok inst,
          store self (construct inst)
            {| heap := heap st; host_world := w;
               trace := trace st ++ [{| callee := o; positional := [];
                                        keywords := [] |}] |}).
Proof.
  intros Hp Hf Ho Hc Hi.
  apply (instance_forced _ _ _ p); try assumption.
  - now rewrite Hf.
  - rewrite Hf. destruct fuel; cbn [call]; rewrite Ho; unfold invoke;
      now rewrite Hc.
Qed.

(** After a forced access that completed, the instance is cached for good:
    no later access calls the factory or changes the state. *)
Lemma forced_then_cached c c' self st p inst st1 st' :
  heap st !! self = Some p ->
  is_none (_li_factory p) = false ->
  c (_li_factory p) [] [] st = Some (Ok inst, st1) ->
  heap st1 !! self = Some p ->
  (if is_none (_li_type_hint p) then Ok true
   else isinstance inst (_li_type_hint p)) = Ok true ->
  _instance c self st = Some (Ok inst, store self (construct inst) st1) /\
  (later (store self (construct inst) st1) st' ->
   _instance c' self st' = Some (Ok inst, st')).
Proof.
  intros Hp Hf Hc Hp1 Hi.
  split; [exact (instance_forced _ _ _ _ _ _ Hp Hf Hc Hp1 Hi)|].
  intros Hlater.
  apply (constructed_forever c' self (construct inst p)) in Hlater as [_ E];
    [exact E|].
  split; [|reflexivity]. exact (lookup_store _ _ _ _ Hp1).
Qed.

(** C10: [LazyInstance] accepts any object as [factory].  With a valid
    [type_hint] construction succeeds and stores it, calling nothing.  A
    factory that is neither callable nor [None] raises [TypeError] when the
    instance is first forced.  With [None] as factory the object counts as
    constructed from the start and for good: [_instance] answers [None] and
    leaves the state as it is, whatever has happened in between. *)
Theorem factory_not_validated fuel c (factory type_hint : value obj) strict st :
  is_none type_hint = true \/ is_type type_hint = true ->
  exists p,
    let self := length (heap st) in
    let st' := {| heap := heap st ++ [p]; host_world := host_world st;
                  trace := trace st |} in
    __init__ factory type_hint strict = Ok p /\
    _li_factory p = factory /\
    _li_instance p = VNone /\
    new factory type_hint strict st = Some (Ok self, st') /\
    (callable factory = false -> is_none factory = false ->
     _instance (call fuel) self st'
     = Some (Raise (TypeError "object is not callable"), st')) /\
    (factory = VNone ->
     forall st'', later st' st'' ->
       _instance c self st'' = Some (Ok VNone, st'')).
Proof.
  intros Hth.
  assert (exists p, __init__ factory type_hint strict = Ok p /\
                    _li_factory p = factory /\ _li_instance p = VNone)
    as (p & Hinit & Hfac & Hinst).
  { unfold __init__. destruct (is_none type_hint) eqn:Hn.
    - eexists. repeat split.
    - destruct Hth as [?|Ht]; [discriminate|]. rewrite Ht. cbn [negb].
      eexists. repeat split. }
  exists p. cbn zeta.
  assert ((heap st ++ [p])%list !! length (heap st) = Some p) as Hp
    by apply list_lookup_middle, eq_refl.
  repeat split; try assumption.
  - unfold new. now rewrite Hinit.
  - intros Hc Hn. unfold _instance, bind.
    rewrite (getfield_lookup _ _ _ p) by exact Hp.
    rewrite Hfac, Hn. cbn [negb].
    now rewrite (call_not_callable _ _ _ _ _ Hc).
  - intros -> st'' Hlater.
    apply (constructed_forever c (length (heap st)) p) in Hlater as [_ E].
    + now rewrite Hinst in E.
    + now split.
Qed.

End Properties.

(** ** The properties at work on the small host program *)

Section Examples.
Import Demo.
#[local] Existing Instance Demo.host.

Example comp_left_to_right_witness :
  let funcs := [VHost Succ; VHost Double; VHost Double] in
  comp funcs = Ok (VPartial funcs) /\
  call 1 (VPartial funcs) [int 3] [] empty
  = nested (call 0) [VHost Double; VHost Double; VHost Succ] (int 3) empty.
Proof.
  cbn zeta.
  destruct (comp_left_to_right (H := host) 0
              [VHost Succ; VHost Double; VHost Double] (int 3) empty eq_refl)
    as (g & Hg & _ & Heq & _).
  split; [reflexivity|]. injection Hg as <-. apply Heq. cbn. lia.
Defined.

(** C1 as stated fails: [comp(succ, double)(3)] is [double(succ(3)) = 8],
    not [succ(double(3)) = 7]. *)
Example comp_right_to_left_counterexample :
  let f := VHost Succ in
  let g := VHost Double in
  comp_call 1 [f; g] [int 3] empty
    <> (let* y := call 1 g [int 3] [] in call 1 f [y] []) empty /\
  fst <$> comp_call 1 [f; g] [int 3] empty = Some (Ok (int 8)) /\
  fst <$> (let* y := call 1 g [int 3] [] in call 1 f [y] []) empty
    = Some (Ok (int 7)).
Proof. cbn zeta. split; [|split]; [discriminate|reflexivity..]. Qed.

Example construction_contract_witness :
  comp [int 1] = Raise AssertionError /\
  new (VHost MakeWidget) (int 5) false empty
  = Some (Raise (type_hint_error (int 5)), empty).
Proof.
  destruct (construction_contract (H := host) 0 [int 1] [] (int 1)
              (VHost MakeWidget) (int 5) false empty) as [Hcomp Hinit].
  split.
  - apply Hcomp; [left|]; reflexivity.
  - apply Hinit; reflexivity.
Defined.

Example type_hint_mismatch_witness :
  let st := holding gadget_as_widget 0 [] in
  let st1 := holding gadget_as_widget 1 [called MakeGadget []] in
  let failed :=
    Some (Raise AssertionError,
          store first (set_instance (VHost AGadget)) st1) in
  new (VHost MakeGadget) (VHost Widget) false empty = Some (Ok first, st) /\
  _instance (call 0) first st = failed /\
  __getattr__ (call 0) first "size" st = failed /\
  call 1 (VDeferred first (VMethodcaller (VStr "run"))) [] [] st = failed.
Proof.
  cbn zeta. split; [reflexivity|].
  destruct (type_hint_mismatch (H := host) 0 first "size"
              (VMethodcaller (VStr "run")) []
              (holding gadget_as_widget 0 []) gadget_as_widget (VHost AGadget)
              (holding gadget_as_widget 1 [called MakeGadget []])
              eq_refl eq_refl eq_refl eq_refl eq_refl eq_refl)
    as (Hinst & Hattr & Hcall).
  split; [exact Hinst|]. split; [|exact Hcall].
  apply Hattr. exists (int 0). split; reflexivity.
Defined.

Example strict_missing_attribute_witness :
  let st := holding strict_widget 0 [] in
  new (VHost Widget) VNone true empty = Some (Ok first, st) /\
  __getattr__ (call 0) first "foo" st
  = Some (Raise (AttributeError "object has no attribute"), st).
Proof.
  cbn zeta. split; [reflexivity|].
  exact (strict_missing_attribute (H := host) (call 0) first "foo"
           (holding strict_widget 0 []) strict_widget
           "object has no attribute" eq_refl eq_refl eq_refl eq_refl).
Defined.

Example nonstrict_missing_attribute_witness :
  let st := holding lazy_widget 0 [] in
  let st1 := holding lazy_widget 1 [called Widget []] in
  new (VHost Widget) VNone false empty = Some (Ok first, st) /\
  __getattr__ (call 0) first "foo" st
  = Some (Raise (AttributeError "object has no attribute"),
          store first (construct (VHost AWidget)) st1).
Proof.
  cbn zeta. split; [reflexivity|].
  destruct (nonstrict_missing_attribute (H := host) (call 0) first "foo"
              (holding lazy_widget 0 []) lazy_widget
              "object has no attribute" eq_refl eq_refl eq_refl eq_refl)
    as [_ Hforced].
  exact (Hforced (VHost AWidget) (holding lazy_widget 1 [called Widget []])
           eq_refl eq_refl eq_refl eq_refl).
Defined.

Example deferred_method_call_witness :
  let st := holding lazy_widget 0 [] in
  let st1 := holding lazy_widget 1 [called Widget []] in
  let caller := VDeferred first (VMethodcaller (VStr "run")) in
  __getattr__ (call 0) first "run" st = Some (Ok caller, st) /\
  call 1 caller [int 4; int 5] [] st
  = call 0 (VHost BoundRun) [int 4; int 5] []
      (store first (construct (VHost AWidget)) st1).
Proof.
  cbn zeta.
  destruct (deferred_method_call (H := host) (call 0) first "run"
              (holding lazy_widget 0 []) lazy_widget (VHost WidgetRun)
              eq_refl eq_refl eq_refl eq_refl eq_refl)
    as (Hget & Hfirst & _).
  split; [exact Hget|].
  exact (Hfirst 0 [int 4; int 5] (holding lazy_widget 0 []) (VHost AWidget)
           (holding lazy_widget 1 [called Widget []]) (VHost BoundRun)
           eq_refl eq_refl eq_refl eq_refl eq_refl).
Defined.

(** C8 as stated fails for keyword arguments: the caller that [proxy.run]
    returns rejects them, although the method of the real instance accepts
    them; nothing is instantiated and nothing is called. *)
Example deferred_keywords_counterexample :
  let st := holding lazy_widget 0 [] in
  let st1 := holding lazy_widget 1 [called Widget []] in
  let caller := VDeferred first (VMethodcaller (VStr "run")) in
  let kwargs := [("verbose", VNone)] in
  __getattr__ (call 1) first "run" st = Some (Ok caller, st) /\
  call 2 caller [int 4] kwargs st
  = Some (Raise (TypeError "<lambda>() got an unexpected keyword argument"),
          st) /\
  fst <$> call 1 (VHost BoundRun) [int 4] kwargs
            (store first (construct (VHost AWidget)) st1)
  = Some (Ok (int 2)) /\
  call 2 caller [int 4] kwargs st
  <> call 1 (VHost BoundRun) [int 4] kwargs
       (store first (construct (VHost AWidget)) st1).
Proof. cbn zeta. repeat split. discriminate. Qed.

Example factory_not_validated_witness :
  new (int 7) VNone true empty
  = Some (Ok first, holding (lazy (int 7) VNone true) 0 []) /\
  _instance (call 0) first (holding (lazy (int 7) VNone true) 0 [])
  = Some (Raise (TypeError "object is not callable"),
          holding (lazy (int 7) VNone true) 0 []).
Proof.
  destruct (factory_not_validated (H := host) 0 (call 0) (int 7) VNone true
              empty (or_introl eq_refl))
    as (p & Hinit & _ & _ & Hnew & Hbad & _).
  injection Hinit as <-. split; [exact Hnew|].
  apply Hbad; reflexivity.
Defined.

(** C5 on a failing input: [LazyInstance(make_gadget, type_hint=Widget)],
    with the attribute [size] read twice.  Both reads raise
    [AssertionError], and the second one calls the factory again: after
    them the factory has been called twice. *)
Theorem factory_called_again_after_mismatch :
  let st0 := holding gadget_as_widget 0 [] in
  let p1 := set_instance (VHost AGadget) gadget_as_widget in
  let st1 := holding p1 1 [called MakeGadget []] in
  let st2 := holding p1 2 [called MakeGadget []; called MakeGadget []] in
  new (VHost MakeGadget) (VHost Widget) false empty = Some (Ok first, st0) /\
  __getattr__ (call 0) first "size" st0 = Some (Raise AssertionError, st1) /\
  __getattr__ (call 0) first "size" st1 = Some (Raise AssertionError, st2).
Proof. cbn zeta. repeat split. Qed.

(** The same happens when the factory raises: every further access calls it
    again. *)
Example factory_called_again_after_exception :
  let p := lazy (VHost Broken) VNone false in
  let failed := Raise (Exception "IOError" "no such file") in
  _instance (call 0) first (holding p 0 [])
  = Some (failed, holding p 1 [called Broken []]) /\
  _instance (call 0) first (holding p 1 [called Broken []])
  = Some (failed, holding p 2 [called Broken []; called Broken []]).
Proof. cbn zeta. repeat split. Qed.

(** C2 on a failing input: [LazyInstance(make_widget)._bind_method("run")].
    The result is a deferred caller and building it calls nothing.  Its
    first invocation calls the factory once and then raises [TypeError],
    because the attribute it asks the instance for is the tuple [("run",)];
    [run] is never called.  A second invocation raises again without
    calling the factory. *)
Theorem bind_method_single_name_fails :
  let st0 := holding made_widget 0 [] in
  let st1 := holding (construct (VHost AWidget) made_widget) 1
                     [called MakeWidget []] in
  let caller := VDeferred first (VMethodcaller (VTuple [VStr "run"])) in
  let failed := Raise (TypeError "attribute name must be string") in
  new (VHost MakeWidget) VNone false empty = Some (Ok first, st0) /\
  _bind_method (call 0) first [VStr "run"] st0 = Some (Ok caller, st0) /\
  call 1 caller [int 4] [] st0 = Some (failed, st1) /\
  call 1 caller [int 4] [] st1 = Some (failed, st1) /\
  host_getattr (VHost AWidget) "run" = Ok (VHost BoundRun).
Proof. cbn zeta. repeat split. Qed.

End Examples.

(** ** Further properties *)

Section Invariants.
Context {H : Host}.

Implicit Types (st : state) (p : LazyInstance) (self : loc).
Implicit Types
  (c : value obj -> list (value obj) -> kwargs obj -> M (value obj)).

Lemma stable_invoke I o args kwargs :
  stable I -> keeps I (invoke o args kwargs).
Proof.
  intros (Hw & _) st r st' Hrun HI. unfold invoke in Hrun.
  destruct (host_call o args kwargs (host_world st)).
  injection Hrun as <- <-. now apply Hw.
Qed.

Lemma keeps_setfield_step I self upd :
  (forall st, I st -> I (store self upd st)) -> keeps I (setfield self upd).
Proof.
  intros Hupd st r st' Hrun HI. unfold setfield in Hrun.
  destruct (heap st !! self); [|easy]. injection Hrun as <- <-. auto.
Qed.

Lemma stable_instance I c self :
  stable I ->
  (forall f args kwargs, keeps I (c f args kwargs)) ->
  keeps I (_instance c self).
Proof.
  intros (_ & Hi & Hf & Hh & _) Hc. unfold _instance.
  apply keeps_bind; [apply keeps_getfield|intros factory].
  apply keeps_bind; [|intros _; apply keeps_getfield].
  destruct (negb (is_none factory)); [|apply keeps_ret].
  apply keeps_bind; [apply Hc|intros inst].
  apply keeps_bind; [apply keeps_setfield_step; auto|intros _].
  apply keeps_bind; [apply keeps_getfield|intros type_hint].
  apply keeps_bind.
  { destruct (is_none type_hint); [apply keeps_ret|].
    apply keeps_bind; [apply keeps_getfield|intros ?; apply keeps_lift]. }
  intros holds.
  apply keeps_bind; [destruct holds; [apply keeps_ret|apply keeps_raise]|].
  intros _.
  apply keeps_bind; [apply keeps_setfield_step; auto|intros _].
  apply keeps_setfield_step; auto.
Qed.

Lemma stable_reduce I c fs x :
  (forall f args kwargs, keeps I (c f args kwargs)) ->
  keeps I (reduce (rapply c) fs x).
Proof.
  intros Hc. revert x. induction fs as [|f fs IH]; intros x; cbn [reduce].
  - apply keeps_ret.
  - apply keeps_bind; [apply Hc|exact IH].
Qed.

Lemma stable_call I fuel f args kwargs :
  stable I -> keeps I (call fuel f args kwargs).
Proof.
  intros HI. revert f args kwargs.
  induction fuel as [|fuel IH]; intros f args kwargs.
  - destruct f; cbn [call]; try apply keeps_out_of_fuel;
      try apply keeps_raise.
    + destruct (host_callable o); [now apply stable_invoke|apply keeps_raise].
    + destruct args as [|? [|]], kwargs; try apply keeps_raise.
      apply keeps_ret.
    + destruct args as [|? [|]], kwargs; try apply keeps_raise.
      apply keeps_lift.
  - destruct f; cbn [call]; try apply keeps_raise.
    + destruct (host_callable o); [now apply stable_invoke|apply keeps_raise].
    + destruct args as [|? [|]], kwargs; try apply keeps_raise.
      apply keeps_ret.
    + destruct kwargs; [|apply keeps_raise].
      destruct args as [|? [|]]; try apply keeps_raise.
      * destruct funcs; [apply keeps_raise|now apply stable_reduce].
      * now apply stable_reduce.
    + destruct args as [|? [|]], kwargs; try apply keeps_raise.
      apply keeps_lift.
    + destruct kwargs; [|apply keeps_raise].
      apply keeps_bind; [now apply stable_instance|intros inst].
      apply keeps_bind; [apply IH|intros method; apply IH].
Qed.

Lemma stable_bind_impl I c self m :
  (forall f args kwargs, keeps I (c f args kwargs)) ->
  keeps I (_li_bind_method_impl c self m).
Proof.
  intros Hc. unfold _li_bind_method_impl.
  apply keeps_bind; [apply keeps_getfield|intros factory].
  destruct (is_none factory); [|apply keeps_ret].
  apply keeps_bind; [apply keeps_getfield|intros inst; apply Hc].
Qed.

Lemma stable_getattr I c self name :
  stable I ->
  (forall f args kwargs, keeps I (c f args kwargs)) ->
  keeps I (__getattr__ c self name).
Proof.
  intros HI Hc. unfold __getattr__.
  apply keeps_bind; [apply keeps_getfield|intros type_hint].
  apply keeps_bind.
  { destruct (negb (is_none type_hint)); [|apply keeps_ret].
    apply keeps_bind; [apply keeps_getfield|intros strict].
    apply keeps_bind; [apply keeps_lift|intros ?; apply keeps_ret]. }
  intros [|]; [now apply stable_bind_impl|].
  apply keeps_bind; [now apply stable_instance|intros ?; apply keeps_lift].
Qed.

Lemma stable_perform I fuel op st st' :
  stable I -> perform fuel op st = Some st' -> I st -> I st'.
Proof.
  intros HI.
  assert (forall A (m : M A), keeps I m ->
            snd <$> m st = Some st' -> I st -> I st') as Hrun.
  { intros A m Hm E. destruct (m st) as [[r st1]|] eqn:Em; [|easy].
    injection E as <-. exact (Hm _ _ _ Em). }
  destruct op; cbn [perform].
  - unfold new. destruct HI as (_ & _ & _ & _ & Hnew).
    destruct (__init__ factory type_hint strict) eqn:E; cbn;
      intros [= <-]; eauto.
  - apply Hrun, stable_getattr; [assumption|]. intros. now apply stable_call.
  - apply Hrun, stable_instance; [assumption|]. intros. now apply stable_call.
  - apply Hrun. unfold _bind_method.
    destruct (Nat.eqb (length methods_or_names) 1); [|apply keeps_ret].
    apply stable_bind_impl. intros. now apply stable_call.
  - apply Hrun. now apply stable_call.
Qed.

Lemma stable_later I st st' : stable I -> later st st' -> I st -> I st'.
Proof.
  intros HI Hlater. induction Hlater as [st|fuel op st st1 st' Hop _ IH].
  - auto.
  - intros Hst. apply IH. exact (stable_perform _ _ _ _ _ HI Hop Hst).
Qed.

Lemma lookup_store_inv self upd st other q :
  heap (store self upd st) !! other = Some q ->
  exists q0, heap st !! other = Some q0 /\
             (q = q0 \/ (other = self /\ q = upd q0)).
Proof.
  unfold store. cbn [heap]. intros Hq.
  destruct (Nat.eq_dec self other) as [->|Hne].
  - rewrite list_lookup_alter_eq in Hq.
    destruct (heap st !! other) as [q0|]; [|easy].
    injection Hq as <-. eauto.
  - rewrite list_lookup_alter_ne in Hq by assumption. eauto.
Qed.

Lemma lookup_new_inv st p other q :
  (heap st ++ [p])%list !! other = Some q ->
  heap st !! other = Some q \/ (other = length (heap st) /\ q = p).
Proof.
  intros Hq. apply lookup_app_Some in Hq as [Hq|[Hle Hq]]; [now left|].
  right. destruct (other - length (heap st)) as [|k] eqn:E; [|easy].
  injection Hq as <-. split; [lia|reflexivity].
Qed.

Lemma init_type_hint factory type_hint strict p :
  __init__ factory type_hint strict = Ok p ->
  is_none (_li_type_hint p) = true \/ is_type (_li_type_hint p) = true.
Proof.
  unfold __init__. destruct (is_none type_hint) eqn:Hn.
  - intros [= <-]. cbn. destruct (is_type factory) eqn:Hf; auto.
  - destruct (is_type type_hint) eqn:Ht; [|easy]. intros [= <-]. auto.
Qed.

Lemma hints_are_types_stable : stable hints_are_types.
Proof.
  unfold stable, hints_are_types. repeat split.
  - intros st w t HI self p. apply HI.
  - intros st self v HI other q Hq.
    apply lookup_store_inv in Hq as (q0 & Hq0 & [->|[_ ->]]); cbn; eauto.
  - intros st self HI other q Hq.
    apply lookup_store_inv in Hq as (q0 & Hq0 & [->|[_ ->]]); cbn; eauto.
  - intros st self HI other q Hq.
    apply lookup_store_inv in Hq as (q0 & Hq0 & [->|[_ ->]]); cbn; eauto.
  - intros st factory type_hint strict p Hinit HI other q Hq.
    cbn [heap] in Hq. apply lookup_new_inv in Hq as [Hq|[_ ->]]; eauto.
    exact (init_type_hint _ _ _ _ Hinit).
Qed.

Lemma evolved_refl p : evolved p p.
Proof. unfold evolved. auto. Qed.

Lemma evolves_from_stable self p : stable (evolves_from self p).
Proof.
  assert (forall upd,
            (forall q, evolved p q -> evolved p (upd q)) ->
            forall st other,
              evolves_from self p st ->
              evolves_from self p (store other upd st)) as Hstore.
  { intros upd Hupd st other (q & Hq & Hev).
    destruct (Nat.eq_dec other self) as [->|Hne].
    - exists (upd q). split; [now apply lookup_store|auto].
    - exists q. split; [|assumption]. unfold store. cbn [heap].
      now rewrite list_lookup_alter_ne. }
  unfold stable. repeat split.
  - intros st w t HI. exact HI.
  - intros st other v. apply Hstore. intros q (? & ? & ?). now repeat split.
  - intros st other. apply Hstore. intros q (? & ? & ?).
    repeat split; cbn; auto.
  - intros st other. apply Hstore. intros q (? & ? & ?).
    repeat split; cbn; auto.
  - intros st factory type_hint strict q _ (p' & Hp' & Hev).
    exists p'. split; [|assumption]. cbn [heap].
    rewrite lookup_app_l; [assumption|]. now apply lookup_lt_Some with p'.
Qed.

(** X1: the type hint of every object is [None] or a type at all times, so
    the type check of [_instance] is always an answer of [isinstance],
    never its [TypeError]. *)
Theorem type_hints_stay_types st st' self p (inst : value obj) :
  hints_are_types st ->
  later st st' ->
  heap st' !! self = Some p ->
  is_none (_li_type_hint p) = false ->
  exists b, isinstance inst (_li_type_hint p) = Ok b.
Proof.
  intros HI Hlater Hp Hn.
  pose proof (stable_later _ _ _ hints_are_types_stable Hlater HI) as HI'.
  destruct (HI' _ _ Hp) as [Hnone|Ht]; [congruence|].
  unfold isinstance. destruct (_li_type_hint p); try discriminate.
  cbn in Ht. rewrite Ht. eauto.
Qed.

(** X2: an object is never removed from the heap and its fields only move
    one way: [strict] never changes, and the factory and the type hint are
    either what they were or [None]. *)
Theorem fields_only_cleared st st' self p :
  heap st !! self = Some p ->
  later st st' ->
  exists p',
    heap st' !! self = Some p' /\
    _li_strict p' = _li_strict p /\
    (_li_factory p' = _li_factory p \/ _li_factory p' = VNone) /\
    (_li_type_hint p' = _li_type_hint p \/ _li_type_hint p' = VNone).
Proof.
  intros Hp Hlater.
  apply (stable_later (evolves_from self p) st st');
    [apply evolves_from_stable|assumption|].
  exists p. split; [assumption|apply evolved_refl].
Qed.

Lemma new_lookup factory type_hint strict st self st' :
  new factory type_hint strict st = Some (Ok self, st') ->
  exists p, __init__ factory type_hint strict = Ok p /\
            heap st' !! self = Some p.
Proof.
  unfold new. destruct (__init__ factory type_hint strict) as [p|e]; [|easy].
  intros [= <- <-]. exists p. split; [reflexivity|]. cbn [heap].
  now apply list_lookup_middle.
Qed.

(** X3: an object built without a type hint from a factory that is not a
    type never defers anything: at any later time, every attribute access
    that reaches [__getattr__] forces the instance and asks the instance for
    the attribute. *)
Theorem no_type_hint_always_forces c factory strict st self st' st'' name :
  is_type factory = false ->
  new factory VNone strict st = Some (Ok self, st') ->
  later st' st'' ->
  __getattr__ c self name st''
  = (let* inst := _instance c self in lift (getattr inst (VStr name))) st''.
Proof.
  intros Ht Hnew Hlater.
  apply new_lookup in Hnew as (p & Hinit & Hp).
  unfold __init__ in Hinit. cbn [is_none] in Hinit. rewrite Ht in Hinit.
  injection Hinit as <-.
  destruct (stable_later _ _ _ (evolves_from_stable self _) Hlater
              (ex_intro _ _ (conj Hp (evolved_refl _))))
    as (p' & Hp' & _ & _ & Hhint).
  cbn in Hhint.
  apply (getattr_delegates _ _ _ _ _ Hp'). left.
  destruct Hhint as [->| ->]; reflexivity.
Qed.

(** X4: with a class as factory and no type hint given, the class itself
    is the type hint: a name that the class resolves to a callable is bound
    to a deferred caller, and nothing is instantiated. *)
Theorem class_factory_is_type_hint c (cls : value obj) strict st self st'
    name v :
  is_type cls = true ->
  new cls VNone strict st = Some (Ok self, st') ->
  host_getattr cls name = Ok v ->
  callable v = true ->
  __getattr__ c self name st'
  = Some (Ok (VDeferred self (VMethodcaller (VStr name))), st').
Proof.
  intros Ht Hnew Hattr Hv.
  apply new_lookup in Hnew as (p & Hinit & Hp).
  unfold __init__ in Hinit. cbn [is_none] in Hinit. rewrite Ht in Hinit.
  injection Hinit as <-.
  assert (is_none cls = false) as Hn by (destruct cls; easy).
  rewrite (getattr_binds _ _ _ _ _ v Hp); [| exact Hn | | exact Hv].
  - now rewrite (bind_impl_unconstructed _ _ _ _ _ Hp Hn).
  - unfold hint_lookup, getattr_default. cbn [_li_strict _li_type_hint getattr].
    rewrite Hattr. now destruct strict.
Qed.

(** X5: constructed is final.  Once an object has consumed its factory,
    no sequence of operations writes to it again: [_instance] answers from
    the cache and, with the type hint cleared, attribute access is plain
    delegation to the real instance; neither calls anything nor changes the
    state. *)
Theorem constructed_is_final c self p st st' name :
  constructed self p st ->
  later st st' ->
  constructed self p st' /\
  _instance c self st' = Some (Ok (_li_instance p), st') /\
  (_li_type_hint p = VNone ->
   __getattr__ c self name st'
   = Some (host_getattr (_li_instance p) name, st')).
Proof.
  intros Hcon Hlater.
  destruct (constructed_forever c self p st st' Hlater Hcon) as [Hcon' E].
  split; [exact Hcon'|]. split; [exact E|]. intros Hhint.
  destruct Hcon' as [Hp _].
  rewrite (getattr_delegates _ _ _ _ _ Hp) by (left; now rewrite Hhint).
  unfold bind. now rewrite E.
Qed.

(** X6: with a function of the host program as factory whose product
    passes the type check, the first forced access calls the factory
    exactly once, without arguments, and marks the object as constructed;
    whatever happens afterwards, no access calls the factory again. *)
Theorem factory_called_once_on_success fuel c self st p o inst w st' :
  heap st !! self = Some p ->
  _li_factory p = VHost o ->
  host_callable o = true ->
  host_call o [] [] (host_world st) = (Ok inst, w) ->
  (if is_none (_li_type_hint p) then Ok true
   else isinstance inst (_li_type_hint p)) = Ok true ->
  let st1 :=
    store self (construct inst)
      {| heap := heap st; host_world := w;
         trace := trace st ++ [{| callee := o; positional := [];
                                  keywords := [] |}] |} in
  _instance (call fuel) self st = Some (Ok inst, st1) /\
  (later st1 st' -> _instance c self st' = Some (Ok inst, st')).
Proof.
  intros Hp Hf Ho Hc Hi st1.
  pose proof (host_factory_forced fuel _ _ _ _ _ _ Hp Hf Ho Hc Hi) as E.
  split; [exact E|]. intros Hlater.
  destruct (constructed_forever c self (construct inst p) st1 st' Hlater)
    as [_ E']; [|exact E'].
  split; [|reflexivity]. unfold st1. now apply lookup_store.
Qed.


Lemma map_list_unconstructed c self items st p :
  heap st !! self = Some p ->
  is_none (_li_factory p) = false ->
  map_list (_li_bind_method_impl c self) items st
  = Some (Ok (map (fun m => VDeferred self (accessor m)) items), st).
Proof.
  intros Hp Hf. induction items as [|m items IH]; [reflexivity|].
  cbn [map_list map]. unfold bind.
  rewrite (bind_impl_unconstructed _ _ _ _ _ Hp Hf), IH. reflexivity.
Qed.

(** X8: with no argument or several, [_bind_method] returns an iterator
    and does nothing else.  Run on an unconstructed object, the iterator
    yields one deferred caller per argument, in the order of the arguments,
    each bound to the argument itself (a getter for anything that is not
    callable); nothing is called and the object stays unconstructed. *)
Theorem bind_method_several fuel c self (items : list (value obj)) st p :
  length items <> 1 ->
  heap st !! self = Some p ->
  is_none (_li_factory p) = false ->
  _bind_method c self items st = Some (Ok (VMap self items), st) /\
  map_items fuel self items st
  = Some (Ok (map (fun m => VDeferred self (accessor m)) items), st).
Proof.
  intros Hlen Hp Hf. split.
  - unfold _bind_method.
    destruct (Nat.eqb_spec (length items) 1) as [E|_]; [easy|reflexivity].
  - now apply map_list_unconstructed with p.
Qed.

(** X9: a caller that [_bind_method] yields for a name, among several
    arguments, works: invoked, it forces the instance and calls the
    attribute of that name on the real instance with the arguments
    given. *)
Theorem bind_method_several_call fuel self (items : list (value obj)) i name
    args st p inst st1 method :
  heap st !! self = Some p ->
  is_none (_li_factory p) = false ->
  items !! i = Some (VStr name) ->
  call fuel (_li_factory p) [] [] st = Some (Ok inst, st1) ->
  heap st1 !! self = Some p ->
  (if is_none (_li_type_hint p) then Ok true
   else isinstance inst (_li_type_hint p)) = Ok true ->
  host_getattr inst name = Ok method ->
  exists callers caller,
    map_items fuel self items st = Some (Ok callers, st) /\
    callers !! i = Some caller /\
    call (S fuel) caller args [] st
    = call fuel method args [] (store self (construct inst) st1).
Proof.
  intros Hp Hf Hi Hc Hp1 Hcheck Hm.
  eexists _, (VDeferred self (VMethodcaller (VStr name))).
  split; [exact (map_list_unconstructed _ _ _ _ _ Hp Hf)|]. split.
  - rewrite list_lookup_fmap, Hi. reflexivity.
  - rewrite deferred_call. unfold bind.
    rewrite (instance_forced _ _ _ _ _ _ Hp Hf Hc Hp1 Hcheck).
    destruct fuel; cbn [call methodcaller lift getattr]; now rewrite Hm.
Qed.

Lemma bind_name_constructed fuel self name st p :
  constructed self p st ->
  _li_bind_method_impl (call fuel) self (VStr name) st
  = Some (host_getattr (_li_instance p) name, st).
Proof.
  intros [Hp Hf]. rewrite (bind_impl_constructed _ _ _ _ _ Hp Hf).
  now destruct fuel.
Qed.

(** X10: on a constructed object there is nothing to defer: the iterator
    of [_bind_method] yields the attributes of the real instance
    themselves, in order, and changes nothing. *)
Theorem bind_method_constructed fuel self names attrs st p :
  constructed self p st ->
  Forall2 (fun name attr => host_getattr (_li_instance p) name = Ok attr)
          names attrs ->
  map_items fuel self (map VStr names) st = Some (Ok attrs, st).
Proof.
  intros Hcon Hall. unfold map_items.
  induction Hall as [|name attr names attrs Hattr _ IH]; [reflexivity|].
  cbn [map map_list]. unfold bind.
  rewrite (bind_name_constructed _ _ _ _ _ Hcon), Hattr, IH. reflexivity.
Qed.

(** X11: on a constructed object [_bind_method] with one argument fails
    at once: it asks the instance for an attribute named by the argument
    tuple, and that is a [TypeError]. *)
Theorem bind_method_single_constructed fuel self (m : value obj) st p :
  constructed self p st ->
  _bind_method (call fuel) self [m] st
  = Some (Raise (TypeError "attribute name must be string"), st).
Proof.
  intros [Hp Hf]. unfold _bind_method. cbn [length Nat.eqb].
  rewrite (bind_impl_constructed _ _ _ _ _ Hp Hf).
  now destruct fuel.
Qed.

(** X16: a name that the type hint resolves to something that is not
    callable, a data attribute of the class for example, is not answered
    from the type hint: the access forces the instance, with one call of
    the factory, and returns what the real instance has under that name. *)
Theorem data_attribute_forces fuel self name st p v o inst w :
  heap st !! self = Some p ->
  is_none (_li_type_hint p) = false ->
  hint_lookup p name = Ok v ->
  callable v = false ->
  _li_factory p = VHost o ->
  host_callable o = true ->
  host_call o [] [] (host_world st) = (Ok inst, w) ->
  isinstance inst (_li_type_hint p) = Ok true ->
  __getattr__ (call fuel) self name st
  = Some (host_getattr inst name,
          store self (construct inst)
            {| heap := heap st; host_world := w;
               trace := trace st ++ [{| callee := o; positional := [];
                                        keywords := [] |}] |}).
Proof.
  intros Hp Hh Hl Hv Hf Ho Hc Hi.
  rewrite (getattr_delegates _ _ _ _ _ Hp) by (right; eauto).
  unfold bind.
  rewrite (host_factory_forced fuel _ _ _ _ _ _ Hp Hf Ho Hc)
    by now rewrite Hh.
  reflexivity.
Qed.



End Invariants.

Section Composition.
Context {H : Host}.

Implicit Types (st : state).
Implicit Types
  (c : value obj -> list (value obj) -> kwargs obj -> M (value obj)).

Lemma reduce_app c (fs gs : list (value obj)) x st :
  reduce (rapply c) (fs ++ gs) x st
  = (let* y := reduce (rapply c) fs x in reduce (rapply c) gs y) st.
Proof.
  revert x st. induction fs as [|f fs IH]; intros x st; cbn [app reduce].
  - reflexivity.
  - unfold bind.
    destruct (rapply c x f st) as [[[y|e] st1]|]; [|reflexivity..].
    rewrite IH. reflexivity.
Qed.

Lemma comp_partial (funcs : list (value obj)) :
  forallb callable funcs = true ->
  2 <= length funcs ->
  comp funcs = Ok (VPartial funcs).
Proof.
  intros Hc Hn. unfold comp. rewrite Hc. cbn [negb].
  now destruct (Nat.leb_spec (length funcs) 1) as [Hle|_]; [lia|].
Qed.

(** X12: whatever [comp] returns is callable, and [comp] applied to it
    alone returns it again: results of [comp] can be composed further. *)
Theorem comp_closed (funcs : list (value obj)) g :
  comp funcs = Ok g ->
  callable g = true /\ comp [g] = Ok g.
Proof.
  intros Hg.
  assert (callable g = true) as Hcall.
  { unfold comp in Hg. destruct (forallb callable funcs) eqn:Hc; [|easy].
    cbn [negb] in Hg. destruct funcs as [|f [|f' fs]]; cbn in Hg;
      injection Hg as <-; try reflexivity.
    cbn in Hc. now rewrite andb_true_r in Hc. }
  split; [exact Hcall|]. unfold comp. cbn. now rewrite Hcall.
Qed.

(** X13: composition splits: for two sequences of at least two callables
    each, [comp( *fs, *gs )(x)] is [comp( *gs )(comp( *fs )(x))]. *)
Theorem comp_splits fuel (fs gs : list (value obj)) x st :
  forallb callable fs = true ->
  forallb callable gs = true ->
  2 <= length fs ->
  2 <= length gs ->
  comp_call (S fuel) (fs ++ gs) [x] st
  = (let* y := comp_call (S fuel) fs [x] in comp_call (S fuel) gs [y]) st.
Proof.
  intros Hfs Hgs Hnf Hng. unfold comp_call.
  rewrite (comp_partial fs Hfs Hnf), (comp_partial gs Hgs Hng).
  rewrite comp_partial.
  - cbn [call]. apply reduce_app.
  - now rewrite forallb_app, Hfs, Hgs.
  - rewrite length_app. lia.
Qed.

(** X14: an exception stops the composition: when the functions before
    [f] have returned [y] and [f(y)] raises, [comp(...)(x)] raises the same
    exception in the state [f] left, and none of the functions after [f] is
    called. *)
Theorem comp_stops_at_exception fuel (fs gs : list (value obj)) f x st y st1
    e st2 :
  forallb callable (fs ++ f :: gs) = true ->
  2 <= length (fs ++ f :: gs) ->
  nested (call fuel) (rev fs) x st = Some (Ok y, st1) ->
  call fuel f [y] [] st1 = Some (Raise e, st2) ->
  comp_call (S fuel) (fs ++ f :: gs) [x] st = Some (Raise e, st2).
Proof.
  intros Hc Hn Hfs Hf. unfold comp_call. rewrite (comp_partial _ Hc Hn).
  cbn [call]. rewrite reduce_app. unfold bind.
  rewrite reduce_nested, Hfs. cbn [reduce]. unfold bind, rapply.
  now rewrite Hf.
Qed.

(** X15: the callable that [comp] builds from two or more functions takes
    at most one positional argument and no keyword arguments; anything else
    is a [TypeError] before any function is called.  Called without an
    argument, it does not call the first function: it hands the first
    function itself to the second as the input. *)
Theorem comp_arity fuel f (funcs args : list (value obj)) (kwargs : kwargs obj)
    st :
  forallb callable (f :: funcs) = true ->
  1 <= length funcs ->
  exists g,
    comp (f :: funcs) = Ok g /\
    call (S fuel) g [] [] st = nested (call fuel) (rev funcs) f st /\
    (kwargs <> [] \/ 2 <= length args ->
     exists msg,
       call (S fuel) g args kwargs st = Some (Raise (TypeError msg), st)).
Proof.
  intros Hc Hn. exists (VPartial (f :: funcs)).
  split; [apply comp_partial; [assumption|cbn; lia]|]. split.
  - cbn [call]. apply reduce_nested.
  - intros Hbad. cbn [call]. destruct kwargs as [|kv kwargs].
    + destruct Hbad as [?|Hlen]; [easy|].
      destruct args as [|a [|b args]]; cbn in Hlen; try lia. now eexists.
    + now eexists.
Qed.

End Composition.

(** ** The further properties on the small host program *)

Section MoreExamples.
Import Demo DemoStates.
#[local] Existing Instance Demo.host.

Example type_hints_stay_types_witness :
  exists b, isinstance (VHost AGadget) (VHost Widget) = Ok b.
Proof.
  refine (type_hints_stay_types (H := host) empty
            (holding gadget_as_widget 0 []) first gadget_as_widget
            (VHost AGadget) _ _ eq_refl eq_refl).
  - intros [|self] p Hp; discriminate Hp.
  - apply later_step
      with (fuel := 0) (op := @New host (VHost MakeGadget) (VHost Widget) false)
           (st1 := holding gadget_as_widget 0 []);
      [reflexivity|apply later_now].
Defined.

Example fields_only_cleared_witness :
  exists p',
    heap (widget_built) !! first = Some p' /\
    _li_strict p' = false /\
    (_li_factory p' = VHost Widget \/ _li_factory p' = VNone) /\
    (_li_type_hint p' = VHost Widget \/ _li_type_hint p' = VNone).
Proof.
  refine (fields_only_cleared (H := host) (holding lazy_widget 0 [])
            widget_built
            first lazy_widget eq_refl _).
  apply later_step
    with (fuel := 0) (op := @Instance host first)
         (st1 := widget_built);
    [reflexivity|apply later_now].
Defined.

Example no_type_hint_always_forces_witness :
  __getattr__ (call 0) first "run" (holding made_widget 0 [])
  = (let* inst := _instance (call 0) first in
     lift (getattr inst (VStr "run"))) (holding made_widget 0 []).
Proof.
  refine (no_type_hint_always_forces (H := host) (call 0) (VHost MakeWidget)
            false empty first (holding made_widget 0 [])
            (holding made_widget 0 []) "run" eq_refl eq_refl _).
  apply later_now.
Defined.

Example class_factory_is_type_hint_witness :
  __getattr__ (call 0) first "run" (holding lazy_widget 0 [])
  = Some (Ok (VDeferred first (VMethodcaller (VStr "run"))),
          holding lazy_widget 0 []).
Proof.
  exact (class_factory_is_type_hint (H := host) (call 0) (VHost Widget) false
           empty first (holding lazy_widget 0 []) "run" (VHost WidgetRun)
           eq_refl eq_refl eq_refl eq_refl).
Defined.

Example constructed_is_final_witness :
  let st := widget_built in
  _instance (call 0) first st = Some (Ok (VHost AWidget), st) /\
  __getattr__ (call 0) first "size" st = Some (Ok (int 3), st).
Proof.
  cbn zeta.
  destruct (constructed_is_final (H := host) (call 0) first
              built_widget
              widget_built
              widget_built
              "size" (conj eq_refl eq_refl))
    as (_ & Hinst & Hattr).
  - apply later_step
      with (fuel := 0) (op := @GetAttr host first "run")
           (st1 := widget_built);
      [reflexivity|apply later_now].
  - split; [exact Hinst|]. apply Hattr. reflexivity.
Defined.

Example factory_called_once_on_success_witness :
  _instance (call 0) first (holding made_widget 0 [])
  = Some (Ok (VHost AWidget), made_built) /\
  _instance (call 0) first made_built = Some (Ok (VHost AWidget), made_built).
Proof.
  destruct (factory_called_once_on_success (H := host) 0 (call 0) first
              (holding made_widget 0 []) made_widget MakeWidget
              (VHost AWidget) (1 : @world host) made_built
              eq_refl eq_refl eq_refl eq_refl eq_refl)
    as [Hfirst Hnext].
  split; [exact Hfirst|]. apply Hnext, later_now.
Defined.


Example bind_method_several_witness :
  let st := holding lazy_widget 0 [] in
  let names := [VStr "run"; VStr "size"] in
  _bind_method (call 0) first names st = Some (Ok (VMap first names), st) /\
  map_items 0 first names st
  = Some (Ok [VDeferred first (VMethodcaller (VStr "run"));
              VDeferred first (VMethodcaller (VStr "size"))], st).
Proof.
  cbn zeta.
  refine (bind_method_several (H := host) 0 (call 0) first
            [VStr "run"; VStr "size"] (holding lazy_widget 0 []) lazy_widget
            _ eq_refl eq_refl).
  cbn. lia.
Defined.

Example bind_method_several_call_witness :
  let st := holding lazy_widget 0 [] in
  let st1 := holding lazy_widget 1 [called Widget []] in
  exists callers caller,
    map_items 0 first [VStr "run"; VStr "size"] st = Some (Ok callers, st) /\
    callers !! 0 = Some caller /\
    call 1 caller [int 4] [] st
    = call 0 (VHost BoundRun) [int 4] []
        (store first (construct (VHost AWidget)) st1).
Proof.
  cbn zeta.
  exact (bind_method_several_call (H := host) 0 first
           [VStr "run"; VStr "size"] 0 "run" [int 4]
           (holding lazy_widget 0 []) lazy_widget (VHost AWidget)
           (holding lazy_widget 1 [called Widget []]) (VHost BoundRun)
           eq_refl eq_refl eq_refl eq_refl eq_refl eq_refl eq_refl).
Defined.

Example bind_method_constructed_witness :
  let st := widget_built in
  map_items 0 first [VStr "run"; VStr "size"] st
  = Some (Ok [VHost BoundRun; int 3], st).
Proof.
  cbn zeta.
  refine (bind_method_constructed (H := host) 0 first ["run"; "size"]
            [VHost BoundRun; int 3]
            widget_built
            built_widget
            (conj eq_refl eq_refl) _).
  repeat constructor.
Defined.

Example bind_method_single_constructed_witness :
  let st := widget_built in
  _bind_method (call 0) first [VStr "run"] st
  = Some (Raise (TypeError "attribute name must be string"), st).
Proof.
  exact (bind_method_single_constructed (H := host) 0 first (VStr "run")
           widget_built
           built_widget (conj eq_refl eq_refl)).
Defined.

Example comp_closed_witness :
  let g := VPartial [VHost Succ; VHost Double] in
  callable g = true /\ comp [g] = Ok g.
Proof.
  exact (comp_closed (H := host) [VHost Succ; VHost Double]
           (VPartial [VHost Succ; VHost Double]) eq_refl).
Defined.

Example comp_splits_witness :
  let fs := [VHost Succ; VHost Double] in
  let gs := [VHost Double; VHost Succ] in
  comp_call 1 (fs ++ gs) [int 3] empty
  = (let* y := comp_call 1 fs [int 3] in comp_call 1 gs [y]) empty.
Proof.
  cbn zeta.
  refine (comp_splits (H := host) 0 [VHost Succ; VHost Double]
            [VHost Double; VHost Succ] (int 3) empty eq_refl eq_refl _ _);
    cbn; lia.
Defined.

Example comp_stops_at_exception_witness :
  comp_call 1 [VHost Succ; VHost MakeWidget; VHost Double] [int 3] empty
  = Some (Raise (TypeError "bad arguments"),
          {| heap := []; host_world := (0 : @world host);
             trace := [called Succ [int 3]; called MakeWidget [int 4]] |}).
Proof.
  refine (comp_stops_at_exception (H := host) 0 [VHost Succ] [VHost Double]
            (VHost MakeWidget) (int 3) empty (int 4)
            {| heap := []; host_world := (0 : @world host);
               trace := [called Succ [int 3]] |}
            (TypeError "bad arguments") _ eq_refl _ eq_refl eq_refl).
  cbn. lia.
Defined.

Example comp_arity_witness :
  let g := VPartial [VHost Succ; VHost Double] in
  comp [VHost Succ; VHost Double] = Ok g /\
  call 1 g [] [] empty = call 0 (VHost Double) [VHost Succ] [] empty /\
  exists msg,
    call 1 g [int 1; int 2] [] empty = Some (Raise (TypeError msg), empty).
Proof.
  cbn zeta.
  destruct (comp_arity (H := host) 0 (VHost Succ) [VHost Double]
              [int 1; int 2] [] empty eq_refl (le_n 1))
    as (g & Hg & Hnone & Hbad).
  injection Hg as <-. split; [reflexivity|]. split; [exact Hnone|].
  apply Hbad. right. cbn. lia.
Defined.

Example data_attribute_forces_witness :
  __getattr__ (call 0) first "size" fresh_widget
  = Some (Ok (int 3), widget_built).
Proof.
  exact (data_attribute_forces (H := host) 0 first "size" fresh_widget
           lazy_widget (int 0) Widget (VHost AWidget) (1 : @world host)
           eq_refl eq_refl eq_refl eq_refl eq_refl eq_refl eq_refl eq_refl).
Defined.


End MoreExamples.
